(** * Release builder for a browser extension: manifest and packaging engine

    A shallow embedding of [scripts/build_release.py]: the [Manifest] class
    (metadata accessors, slug, version bump with write-through) and the
    [ReleaseBuilder] class (exclusion test, directory walk, archive assembly,
    the two canned builds, the size shown in the summary), followed by the
    properties of the version bump, of the slug, of the exclusion rules, of
    the builds and of the sizes.  [print_summary] and [main] are not
    embedded: they read the size of the archives on disk, slice a
    description that need not be a string, parse the command line and open
    a folder.

    Conventions of the embedding.
    - A Python [str] is a list of characters; a character is a code point
      below 256 (type [ascii]).  The builtins used by the script ([lower],
      [split], [strip], [int], [str] of an integer, [re.sub] with the fixed
      pattern) are modelled exactly on that range.  Integers are unbounded;
      the limit CPython puts on the number of digits converted (4300 by
      default) is not modelled.
    - The only floats of the script are the sizes [format_size] divides by
      1024 or by 1024 * 1024: such a quotient is kept as an integer over a
      power of two, rounded to 53 bits as [int / int] rounds it, and
      [format(x, '.1f')] rounds it again, to the nearest tenth; both round
      ties to even.
    - [os.path] is [posixpath] ([os.sep] is the slash).  [relpath] is
      computed on paths without [.] and [..] components, which is what the
      walk produces from such a project root.
    - The parsed manifest is an insertion-ordered dictionary from strings to
      JSON values, of which only strings are looked into; the others are kept
      opaque.
    - What a run only reads (the project root, the tree found there, which
      files can be opened, how a non-string value is rendered) is a class
      [Env].  The tree holds regular files and directories; the items a
      package lists are names of entries of the project root.
    - Effects (the manifest file, the output directory, the console, the
      directories listed by [os.walk]) live in an explicit [state] threaded
      by a small state-and-exception monad.  An archive is the list of its
      entries, each a source path with the archive name given to
      [zipf.write], in the order written.  The output directory holds files
      only, each under its name: an archive name with a separator in it,
      which a version such as [1/2] gives and which names a path below the
      output directory, is outside the model.

    Layout: the script, definition by definition; the vocabulary of the
    properties; sample projects; the properties; the properties on the
    sample projects. *)

From Stdlib Require Import List Ascii String ZArith NArith Lia Bool.
From Stdlib Require Import DecimalString DecimalPos.
Import ListNotations.

Set Implicit Arguments.

#[local] Arguments Ascii.eqb : simpl never.

(* ================================================================== *)
(** * Python strings *)
(* ================================================================== *)

Definition str := list ascii.

(** A string literal of the script. *)
Definition py (s : string) : str := list_ascii_of_string s.

Definition ord (c : ascii) : N := N_of_ascii c.
Definition chr (n : N) : ascii := ascii_of_N n.

Definition in_range (lo hi : N) (c : ascii) : bool :=
  ((lo <=? ord c) && (ord c <=? hi))%N.

(** [a == b] on strings. *)
Fixpoint str_eqb (a b : str) : bool :=
  match a, b with
  | [], [] => true
  | x :: a', y :: b' => Ascii.eqb x y && str_eqb a' b'
  | _, _ => false
  end.

(** [pattern in parts] for a list of strings. *)
Definition str_in (x : str) (l : list str) : bool := existsb (str_eqb x) l.

(** [s.startswith(p)] *)
Fixpoint startswith (s p : str) {struct p} : bool :=
  match p, s with
  | [], _ => true
  | a :: p', b :: s' => Ascii.eqb a b && startswith s' p'
  | _ :: _, [] => false
  end.

(** [s.endswith(p)] *)
Definition endswith (s p : str) : bool := startswith (rev s) (rev p).

(** [s.split(sep)] for a one-character separator: never empty, one more
    piece than there are separators. *)
Fixpoint split (sep : ascii) (s : str) : list str :=
  match s with
  | [] => [[]]
  | c :: s' =>
      if Ascii.eqb c sep then [] :: split sep s'
      else match split sep s' with
           | piece :: rest => (c :: piece) :: rest
           | [] => [[c]]
           end
  end.

(** [s.lstrip(c)], [s.rstrip(c)] and [s.strip(c)] for a one-character set. *)
Fixpoint lstrip (c : ascii) (s : str) : str :=
  match s with
  | a :: s' => if Ascii.eqb a c then lstrip c s' else s
  | [] => []
  end.

Definition rstrip (c : ascii) (s : str) : str := rev (lstrip c (rev s)).

Definition strip (c : ascii) (s : str) : str := lstrip c (rstrip c s).

(** [s.lower()]: on code points below 256 the upper-case letters are A-Z and
    the Latin-1 capitals U+00C0..U+00DE (the multiplication sign U+00D7
    apart), each 32 below its lower-case form. *)
Definition lower_char (c : ascii) : ascii :=
  if in_range 65 90 c || in_range 192 214 c || in_range 216 222 c
  then chr (ord c + 32) else c.

Definition lower (s : str) : str := map lower_char s.

(** The character class [[a-z0-9]] of the slug pattern. *)
Definition is_az09 (c : ascii) : bool := in_range 97 122 c || in_range 48 57 c.

Definition hyphen : ascii := "-"%char.

(** [re.sub(r'[^a-z0-9]+', '-', s)]: every maximal run of characters outside
    [[a-z0-9]] is replaced by one hyphen.  [in_run] tells that the previous
    character already belongs to the run being replaced. *)
Fixpoint re_sub_run (in_run : bool) (s : str) : str :=
  match s with
  | [] => []
  | c :: s' =>
      if is_az09 c then c :: re_sub_run false s'
      else if in_run then re_sub_run true s'
      else hyphen :: re_sub_run true s'
  end.

Definition re_sub_non_az09 (s : str) : str := re_sub_run false s.

(** ** [int(s)] and [str(n)] *)

(** Whitespace skipped by [int]: tab, line feed, vertical tab, form feed,
    carriage return, space, and the two non-ASCII spaces below 256 (U+0085,
    U+00A0), which the interpreter maps to a space before parsing. *)
Definition is_space (c : ascii) : bool :=
  in_range 9 13 c || (ord c =? 32)%N || (ord c =? 133)%N || (ord c =? 160)%N.

Definition digit_val (c : ascii) : option Z :=
  if in_range 48 57 c then Some (Z.of_N (ord c) - 48)%Z else None.

Fixpoint skip_spaces (s : str) : str :=
  match s with
  | c :: s' => if is_space c then skip_spaces s' else s
  | [] => []
  end.

(** Digits with single underscores between them; returns the value read and
    what follows.  [prev_us] tells that the previous character was an
    underscore (two in a row, or a trailing one, are refused). *)
Fixpoint scan_digits (acc : Z) (prev_us : bool) (s : str) : option (Z * str) :=
  match s with
  | [] => if prev_us then None else Some (acc, [])
  | c :: s' =>
      match digit_val c with
      | Some d => scan_digits (10 * acc + d)%Z false s'
      | None =>
          if Ascii.eqb c "_"%char
          then (if prev_us then None else scan_digits acc true s')
          else (if prev_us then None else Some (acc, s))
      end
  end.

(** [int(s)] in base ten: optional blanks, an optional sign, a digit, more
    digits with single underscores in between, optional blanks.  [None] is
    [ValueError].  The control characters U+001C..U+001F, which [str.isspace]
    takes for blanks, are not blanks here. *)
Definition int (s : str) : option Z :=
  let s1 := skip_spaces s in
  let '(neg, s2) :=
    match s1 with
    | c :: r => if Ascii.eqb c "+"%char then (false, r)
                else if Ascii.eqb c "-"%char then (true, r)
                else (false, s1)
    | [] => (false, s1)
    end in
  match s2 with
  | c :: _ =>
      match digit_val c with
      | Some _ =>
          match scan_digits 0%Z false s2 with
          | Some (v, rest) =>
              match skip_spaces rest with
              | [] => Some (if neg then (- v)%Z else v)
              | _ :: _ => None
              end
          | None => None
          end
      | None => None
      end
  | [] => None
  end.

(** [str(n)] for an integer, as an f-string renders it. *)
Definition str_of_int (z : Z) : str := py (NilZero.string_of_int (Z.to_int z)).

(** ** True division of integers and [format(x, '.1f')] *)

(** [a / b] rounded to an integer, to nearest and ties to even, for
    [b > 0]. *)
Definition round_half_even (a b : Z) : Z :=
  let q := (a / b)%Z in
  let r := (a mod b)%Z in
  if (b <? 2 * r)%Z || ((2 * r =? b)%Z && Z.odd q) then (q + 1)%Z else q.

(** A float that is not negative, as the quotient of an integer by a power
    of two: [numerator / 2 ** scale]. *)
Record float : Type := mkFloat { numerator : Z; scale : Z }.

(** The integer [n > 0] rounded to the 53 significant bits of a float, to
    nearest and ties to even. *)
Definition round53 (n : Z) : Z :=
  let bits := (Z.log2 n + 1)%Z in
  if (bits <=? 53)%Z then n
  else
    let low := (2 ^ (bits - 53))%Z in
    (round_half_even n low * low)%Z.

(** [n / 2 ** k] for integers [n > 0] and [k >= 0]: the quotient is rounded
    once, to the nearest float.  [None] is the [OverflowError] of a quotient
    that rounds to [2 ** 1024] or more. *)
Definition truediv_pow2 (n k : Z) : option float :=
  let m := round53 n in
  if (m <? 2 ^ (1024 + k))%Z then Some (mkFloat m k) else None.

(** A number of tenths, written with one decimal. *)
Definition one_decimal (t : Z) : str :=
  str_of_int (t / 10) ++ py "." ++ str_of_int (t mod 10).

(** [f'{x:.1f}'] for a float [x >= 0]: the value is rounded to the nearest
    tenth, ties to the even digit, and written in full, without exponent. *)
Definition format_1f (x : float) : str :=
  one_decimal (round_half_even (10 * numerator x) (2 ^ scale x)).

(* ================================================================== *)
(** * [os.path] on POSIX *)
(* ================================================================== *)

Definition sep : ascii := "/"%char.

(** [os.path.basename(p)]: what follows the last separator. *)
Definition os_path_basename (p : str) : str := last (split sep p) [].

(** [os.path.join(a, b)] *)
Definition os_path_join (a b : str) : str :=
  if startswith b [sep] then b
  else match a with
       | [] => b
       | _ :: _ => if endswith a [sep] then a ++ b else a ++ sep :: b
       end.

(** The non-empty components of a path, as [relpath] compares them. *)
Definition segments (p : str) : list str :=
  filter (fun x => negb (str_eqb x [])) (split sep p).

Fixpoint common_prefix_len (a b : list str) : nat :=
  match a, b with
  | x :: a', y :: b' => if str_eqb x y then S (common_prefix_len a' b') else 0
  | _, _ => 0
  end.

(** [os.path.relpath(path, start)] for two paths that are both absolute, or
    both relative to the working directory, and have no [.] or [..]
    component (so that [abspath] only drops empty components).  [None] is
    the [ValueError] raised for an empty [path]. *)
Definition os_path_relpath (path start : str) : option str :=
  match path with
  | [] => None
  | _ :: _ =>
      let start_list := segments start in
      let path_list := segments path in
      let i := common_prefix_len start_list path_list in
      let rel_list :=
        repeat (py "..") (List.length start_list - i) ++ skipn i path_list in
      match rel_list with
      | [] => Some (py ".")
      | first :: rest => Some (fold_left os_path_join rest first)
      end
  end.

(* ================================================================== *)
(** * Exceptions, state and the monad of the script *)
(* ================================================================== *)

Inductive exn : Type :=
| ValueError
| AttributeError
| PermissionError
| FileNotFoundError
| SystemExit (code : Z).

Inductive outcome (A : Type) : Type :=
| Ok (a : A)
| Raise (e : exn).

Arguments Ok {A} a.
Arguments Raise {A} e.

(** A computation over a state [S]: it returns or raises, and leaves a state
    either way. *)
Definition M (S A : Type) : Type := S -> outcome A * S.

Definition ret {S A} (a : A) : M S A := fun s => (Ok a, s).

Definition raise {S A} (e : exn) : M S A := fun s => (Raise e, s).

Definition bind {S A B} (m : M S A) (k : A -> M S B) : M S B :=
  fun s => match m s with
           | (Ok a, s') => k a s'
           | (Raise e, s') => (Raise e, s')
           end.

Definition gets {S A} (f : S -> A) : M S A := fun s => (Ok (f s), s).

Definition modify {S} (f : S -> S) : M S unit := fun s => (Ok tt, f s).

(** [try: body finally: cleanup], which is what a [with] block does with the
    context manager's exit: the cleanup runs on both ways out and an
    exception of the body goes on afterwards. *)
Definition finally {S A} (body : M S A) (cleanup : M S unit) : M S A :=
  fun s => match body s with
           | (Ok a, s') =>
               match cleanup s' with
               | (Ok _, s'') => (Ok a, s'')
               | (Raise e, s'') => (Raise e, s'')
               end
           | (Raise e, s') =>
               match cleanup s' with
               | (Ok _, s'') => (Raise e, s'')
               | (Raise e', s'') => (Raise e', s'')
               end
           end.

Notation "x <- m ;; k" := (bind m (fun x => k))
  (at level 61, m at next level, right associativity).
Notation "m ;; k" := (bind m (fun _ => k))
  (at level 61, right associativity).

(** [for x in l: body(x)] *)
Fixpoint for_each {S A} (l : list A) (body : A -> M S unit) : M S unit :=
  match l with
  | [] => ret tt
  | x :: l' => body x ;; for_each l' body
  end.

(** ** The file system the builder reads *)

(** A directory tree: regular files and directories with named entries, in
    the order the directory lists them. *)
#[warnings="-register-all"]
Inductive node : Type :=
| File
| Dir (children : list (str * node)).

Fixpoint assoc {A} (k : str) (l : list (str * A)) : option A :=
  match l with
  | [] => None
  | (k', v) :: l' => if str_eqb k' k then Some v else assoc k l'
  end.

Definition is_dir (n : node) : bool :=
  match n with Dir _ => true | File => false end.

(** The names [os.scandir] reports as directories, and the others. *)
Definition dir_names (children : list (str * node)) : list str :=
  map fst (filter (fun p => is_dir (snd p)) children).

Definition nondir_names (children : list (str * node)) : list str :=
  map fst (filter (fun p => negb (is_dir (snd p))) children).

(** ** Archives in the output directory *)

(** A file of the output directory: an archive, with the entries written so
    far as (source path, archive name), whether the archive has been closed
    (its directory written), and whether the file is held open elsewhere so
    that removing it is refused. *)
Record outfile : Type := mkOutfile {
  locked : bool;
  closed : bool;
  entries : list (str * str)
}.

Fixpoint assoc_remove {A} (k : str) (l : list (str * A)) : list (str * A) :=
  match l with
  | [] => []
  | (k', v) :: l' =>
      if str_eqb k' k then assoc_remove k l' else (k', v) :: assoc_remove k l'
  end.

Fixpoint assoc_update {A} (k : str) (f : A -> A) (l : list (str * A))
  : list (str * A) :=
  match l with
  | [] => []
  | (k', v) :: l' =>
      if str_eqb k' k then (k', f v) :: l' else (k', v) :: assoc_update k f l'
  end.

(** ** What a run is given *)

(** A run of the script is set in surroundings it only reads: the project
    root the builder was created with, the directory tree found there, which
    files can be opened for reading, and how an f-string renders a JSON value
    that is no string.  JSON values other than strings (numbers, booleans,
    null, arrays, objects) are kept opaque, as a type [value]: the script
    stores them and hands them back, and only ever renders one, the version,
    inside a file name. *)
Class Env (value : Type) : Type := {
  (** what an f-string renders a non-string value as *)
  render : value -> str;
  (** [self.project_root] *)
  project_root : str;
  (** the entries of the project root directory (the output directory apart,
      which the state holds), in listing order; the items a package lists
      are names of such entries, every directory can be listed, and a run
      leaves this tree as it is: the archives go to the output directory,
      into which no listed item leads *)
  project : list (str * node);
  (** whether opening the file at a path for reading succeeds *)
  can_read : str -> bool
}.

(* ================================================================== *)
(** * The script *)
(* ================================================================== *)

Section Release.

Context {value : Type} {env : Env value}.

Inductive json : Type :=
| JStr (s : str)
| JOther (v : value).

(** A Python [dict] with string keys: the keys in insertion order. *)
Definition dict : Type := list (str * json).

(** [d.get(key, default)] *)
Definition dict_get (key : str) (default : json) (d : dict) : json :=
  match assoc key d with
  | Some v => v
  | None => default
  end.

(** [d[key] = v]: a key already there keeps its place, a new key goes last. *)
Fixpoint dict_set (key : str) (v : json) (d : dict) : dict :=
  match d with
  | [] => [(key, v)]
  | (k, w) :: d' =>
      if str_eqb k key then (k, v) :: d' else (k, w) :: dict_set key v d'
  end.

(** The mutable world of one run. *)
Record state : Type := mkState {
  manifest_data : dict;   (** [Manifest._data] of the loaded manifest *)
  manifest_file : dict;   (** what [manifest.json] holds on disk *)
  releases : option (list (str * outfile));
                          (** the output directory, when it exists *)
  stdout : list str;      (** what was printed, one item per [print] *)
  scanned : list str      (** the directories [os.walk] has listed *)
}.

Definition set_manifest_data (d : dict) (s : state) : state :=
  mkState d (manifest_file s) (releases s) (stdout s) (scanned s).

Definition set_manifest_file (d : dict) (s : state) : state :=
  mkState (manifest_data s) d (releases s) (stdout s) (scanned s).

Definition set_releases (r : option (list (str * outfile))) (s : state) : state :=
  mkState (manifest_data s) (manifest_file s) r (stdout s) (scanned s).

Definition add_stdout (line : str) (s : state) : state :=
  mkState (manifest_data s) (manifest_file s) (releases s)
          (stdout s ++ [line]) (scanned s).

Definition add_scanned (top : str) (s : state) : state :=
  mkState (manifest_data s) (manifest_file s) (releases s) (stdout s)
          (scanned s ++ [top]).

Definition print (line : str) : M state unit := modify (add_stdout line).

(** ** class Manifest *)

(** [Manifest._load], at the level of the parsed data. *)
Definition _load : M state unit :=
  modify (fun s => set_manifest_data (manifest_file s) s).

(** [Manifest._save]: the whole of [_data] is written back. *)
Definition _save : M state unit :=
  modify (fun s => set_manifest_file (manifest_data s) s).

Definition name : M state json :=
  gets (fun s => dict_get (py "name") (JStr (py "extension")) (manifest_data s)).

(** The body of the [slug] property on a name that is a string. *)
Definition slugify (name : str) : str :=
  let name := lower name in
  let name := re_sub_non_az09 name in
  strip hyphen name.

(** [Manifest.slug]; a name that is no string has no [lower]. *)
Definition slug : M state str :=
  n <- name ;;
  match n with
  | JStr s => ret (slugify s)
  | JOther _ => raise AttributeError
  end.

Definition version : M state json :=
  gets (fun s => dict_get (py "version") (JStr (py "0.0.0")) (manifest_data s)).

(** The setter of [version]. *)
Definition set_version (v : json) : M state unit :=
  modify (fun s => set_manifest_data (dict_set (py "version") v (manifest_data s)) s) ;;
  _save.

Definition description : M state json :=
  gets (fun s => dict_get (py "description") (JStr (py "")) (manifest_data s)).

Definition get (key : str) (default : json) : M state json :=
  gets (fun s => dict_get key default (manifest_data s)).

(** [while len(parts) < 3: parts.append('0')] *)
Definition pad3 (parts : list str) : list str :=
  parts ++ repeat (py "0") (3 - List.length parts).

(** [int(part)] as a statement of the script. *)
Definition int_of (part : str) : M state Z :=
  match int part with
  | Some n => ret n
  | None => raise ValueError
  end.

(** The three branches on [bump_type]. *)
Definition bumped (bump_type : str) (major minor patch : Z) : Z * Z * Z :=
  if str_eqb bump_type (py "major") then (major + 1, 0, 0)%Z
  else if str_eqb bump_type (py "minor") then (major, minor + 1, 0)%Z
  else (major, minor, patch + 1)%Z.

(** [f'{major}.{minor}.{patch}'] *)
Definition format_version (v : Z * Z * Z) : str :=
  let '(major, minor, patch) := v in
  str_of_int major ++ py "." ++ str_of_int minor ++ py "." ++ str_of_int patch.

(** [Manifest.bump_version]; a version that is no string has no [split]. *)
Definition bump_version (bump_type : str) : M state (str * str) :=
  v <- version ;;
  match v with
  | JOther _ => raise AttributeError
  | JStr old_version =>
      let parts := pad3 (split "." old_version) in
      major <- int_of (nth 0 parts []) ;;
      minor <- int_of (nth 1 parts []) ;;
      patch <- int_of (nth 2 parts []) ;;
      let new_version := format_version (bumped bump_type major minor patch) in
      set_version (JStr new_version) ;;
      ret (old_version, new_version)
  end.

(** ** class ReleaseBuilder *)

Definition STORE_FILES : list str :=
  [py "manifest.json"; py "icons"; py "src"].

Definition DOCS_FILES : list str :=
  [py "README.md"; py "PRIVACY.md"; py "LICENSE"; py "CHANGELOG.md"].

Definition EXCLUDE_PATTERNS : list str :=
  [py "__pycache__"; py ".git"; py ".gitignore"; py ".gitattributes";
   py "node_modules"; py "releases"; py "docs"; py "scripts"; py ".vscode";
   py ".idea"; py "*.zip"; py "*.pyc"; py ".DS_Store"; py "Thumbs.db"].

(** [self.output_dir] *)
Definition output_dir : str := os_path_join project_root (py "releases").

(** The loop of [_should_exclude] over the patterns still to try. *)
Fixpoint exclude_loop (patterns : list str) (name path : str) : bool :=
  match patterns with
  | [] => false
  | pattern :: rest =>
      if startswith pattern (py "*") then
        if endswith name (tl pattern) then true
        else exclude_loop rest name path
      else if str_eqb pattern name || str_in pattern (split sep path) then true
      else exclude_loop rest name path
  end.

Definition _should_exclude (path : str) : bool :=
  let name := os_path_basename path in
  exclude_loop EXCLUDE_PATTERNS name path.

(** [os.path.exists(os.path.join(self.project_root, item))], and what is
    there. *)
Definition stat (item : str) : option node := assoc item project.

(** [zipfile.ZipFile(filepath, 'w', ...)]: the file is created, or emptied;
    the output directory must exist and the file must not be held open. *)
Definition zip_open (filename : str) : M state unit :=
  fun s =>
    match releases s with
    | None => (Raise FileNotFoundError, s)
    | Some out =>
        match assoc filename out with
        | Some f =>
            if locked f then (Raise PermissionError, s)
            else (Ok tt, set_releases
                    (Some (assoc_update filename
                             (fun _ => mkOutfile false false []) out)) s)
        | None =>
            (Ok tt, set_releases
               (Some (out ++ [(filename, mkOutfile false false [])])) s)
        end
    end.

Definition add_entry (file_path arc_path : str) (f : outfile) : outfile :=
  mkOutfile (locked f) (closed f) (entries f ++ [(file_path, arc_path)]).

Definition close_file (f : outfile) : outfile :=
  mkOutfile (locked f) true (entries f).

Definition update_releases (filename : str) (f : outfile -> outfile)
  (s : state) : state :=
  match releases s with
  | Some out => set_releases (Some (assoc_update filename f out)) s
  | None => s
  end.

(** [zipf.write(file_path, arc_path)]: the source is opened for reading
    before anything is added. *)
Definition zip_write (zipf : str) (file_path arc_path : str) : M state unit :=
  if can_read file_path
  then modify (update_releases zipf (add_entry file_path arc_path))
  else raise PermissionError.

(** [ZipFile.__exit__]: the archive is closed. *)
Definition zip_close (zipf : str) : M state unit :=
  modify (update_releases zipf close_file).

(** [os.walk(top)] over the tree [n] found at [top], top-down.  Each
    directory is listed (and recorded in [scanned]), then handed to [body],
    the body of the caller's [for] loop, as [(root, dirs, files)]; [body]
    returns what it has left in the list [dirs], which is the list the walk
    goes on with: only the directories still named there are entered, in
    that order.  A name that is no directory of the tree yields nothing. *)
Fixpoint os_walk (body : str -> list str -> list str -> M state (list str))
  (n : node) (top : str) {struct n} : M state unit :=
  match n with
  | File => ret tt
  | Dir children =>
      modify (add_scanned top) ;;
      dirs <- body top (dir_names children) (nondir_names children) ;;
      let below := map (fun p => (fst p, os_walk body (snd p))) children in
      for_each dirs (fun d =>
        match assoc d below with
        | Some walk => walk (os_path_join top d)
        | None => ret tt
        end)
  end.

(** The body of the loop of [_add_to_zip] over [os.walk(source)]. *)
Definition add_dir_body (zipf source arcname : str)
  (root : str) (dirs files : list str) : M state (list str) :=
  let dirs := filter (fun d => negb (_should_exclude d)) dirs in
  for_each files (fun file =>
    if _should_exclude file then ret tt
    else
      let file_path := os_path_join root file in
      match os_path_relpath file_path source with
      | None => raise ValueError
      | Some rel =>
          let arc_path := os_path_join arcname rel in
          zip_write zipf file_path arc_path
      end) ;;
  ret dirs.

(** [_add_to_zip(zipf, source, arcname)], [n] being what is at [source]. *)
Definition _add_to_zip (zipf : str) (source : str) (n : node)
  (arcname : option str) : M state unit :=
  let arcname :=
    match arcname with
    | None => os_path_basename source
    | Some a => a
    end in
  match n with
  | File =>
      if negb (_should_exclude source) then zip_write zipf source arcname
      else ret tt
  | Dir _ => os_walk (add_dir_body zipf source arcname) n source
  end.

Definition render_json (j : json) : str :=
  match j with
  | JStr s => s
  | JOther v => render v
  end.

Definition newline : ascii := chr 10.

(** [_create_package(files, suffix)] *)
Definition _create_package (files : list str) (suffix : str) : M state str :=
  sl <- slug ;;
  v <- version ;;
  let filename := sl ++ py "-v" ++ render_json v ++ suffix ++ py ".zip" in
  let filepath := os_path_join output_dir filename in
  existing <- gets (fun s => match releases s with
                             | Some out => assoc filename out
                             | None => None
                             end) ;;
  match existing with
  | Some f =>
      if locked f then
        print (newline :: py "  Error: Cannot overwrite " ++ filename) ;;
        print (py "  The file may be open in another program.") ;;
        print (py "  Close the file and try again." ++ [newline]) ;;
        raise (SystemExit 1)
      else
        modify (fun s => match releases s with
                         | Some out =>
                             set_releases (Some (assoc_remove filename out)) s
                         | None => s
                         end)
  | None => ret tt
  end ;;
  zip_open filename ;;
  finally
    (for_each files (fun item =>
       let source := os_path_join project_root item in
       match stat item with
       | Some n => _add_to_zip filename source n (Some item)
       | None => ret tt
       end))
    (zip_close filename) ;;
  ret filepath.

(** [_get_existing_files(file_list)] *)
Definition _get_existing_files (file_list : list str) : list str :=
  filter (fun item => match stat item with Some _ => true | None => false end)
         file_list.

Definition build_store_package : M state str :=
  let files := _get_existing_files STORE_FILES in
  _create_package files (py "-store").

Definition build_github_package : M state str :=
  let store_files := _get_existing_files STORE_FILES in
  let docs_files := _get_existing_files DOCS_FILES in
  _create_package (store_files ++ docs_files) (py "").

(** The dictionary [build_all] returns. *)
Record summary : Type := mkSummary {
  r_name : json;
  r_slug : str;
  r_version : json;
  r_description : json;
  r_store : str;
  r_github : str;
  r_output_dir : str
}.

(** [os.makedirs(self.output_dir, exist_ok=True)] *)
Definition makedirs_output : M state unit :=
  modify (fun s => match releases s with
                   | None => set_releases (Some []) s
                   | Some _ => s
                   end).

Definition build_all : M state summary :=
  makedirs_output ;;
  n <- name ;;
  sl <- slug ;;
  v <- version ;;
  d <- description ;;
  store <- build_store_package ;;
  github <- build_github_package ;;
  ret (mkSummary n sl v d store github output_dir).

(** [ReleaseBuilder.format_size(bytes_size)] for an integer size; [1024] is
    [2 ** 10].  [None] is [OverflowError]. *)
Definition format_size (bytes_size : Z) : option str :=
  if (bytes_size <? 1024)%Z then
    Some (str_of_int bytes_size ++ py " B")
  else if (bytes_size <? 1024 * 1024)%Z then
    match truediv_pow2 bytes_size 10 with
    | Some x => Some (format_1f x ++ py " KB")
    | None => None
    end
  else
    match truediv_pow2 bytes_size 20 with
    | Some x => Some (format_1f x ++ py " MB")
    | None => None
    end.

(* ================================================================== *)
(** * Vocabulary of the properties *)
(* ================================================================== *)

Unset Implicit Arguments.

Definition slug_char (c : ascii) : Prop := is_az09 c = true \/ c = hyphen.

(** No two hyphens in a row. *)
Fixpoint single_hyphens (s : str) : Prop :=
  match s with
  | a :: (b :: _) as s' => ~ (a = hyphen /\ b = hyphen) /\ single_hyphens s'
  | _ => True
  end.

Definition no_leading_hyphen (s : str) : Prop :=
  match s with
  | c :: _ => c <> hyphen
  | [] => True
  end.

Definition is_digit (c : ascii) : bool := in_range 48 57 c.

(** The state a successful bump leaves: the new version in the loaded data,
    and the loaded data on disk. *)
Definition bumped_state (new_version : str) (s : state) : state :=
  let d := dict_set (py "version") (JStr new_version) (manifest_data s) in
  set_manifest_file d (set_manifest_data d s).

(** The three components a bump reads. *)
Definition component (i : nat) (old_version : str) : str :=
  nth i (split "." old_version) (py "0").

(** What stops [int]: a character that is no digit, underscore, sign or
    blank. *)
Definition foreign_char (c : ascii) : Prop :=
  is_digit c = false /\ is_space c = false /\
  c <> "_"%char /\ c <> "+"%char /\ c <> "-"%char.

Definition other_than (key : str) (kv : str * json) : bool :=
  negb (str_eqb (fst kv) key).

(** The name of a directory entry: not empty, no separator in it. *)
Definition plain (name : str) : Prop := name <> [] /\ ~ In sep name.

Definition rooted (p : str) : bool := startswith p [sep].

(** What the patterns say, read on a name: a pattern is the name itself, or
    a star followed by an ending of the name. *)
Definition matches_pattern (pattern name : str) : Prop :=
  pattern = name \/
  exists ending front, pattern = "*"%char :: ending /\ name = front ++ ending.

Definition excluded_name (name : str) : Prop :=
  exists pattern, In pattern EXCLUDE_PATTERNS /\ matches_pattern pattern name.

(** Induction on a tree, with the hypothesis for every entry of a
    directory. *)
Definition node_ind' (P : node -> Prop) (HF : P File)
  (HD : forall children, Forall (fun p => P (snd p)) children -> P (Dir children))
  : forall n, P n :=
  fix go (n : node) : P n :=
    match n with
    | File => HF
    | Dir children =>
        HD children
           ((fix all (l : list (str * node)) : Forall (fun p => P (snd p)) l :=
               match l with
               | [] => Forall_nil _
               | p :: l' => Forall_cons p (go (snd p)) (all l')
               end) children)
    end.

(** Every name in the tree is the name of a directory entry. *)
#[warnings="-register-all"]
Inductive wf_node : node -> Prop :=
| wf_File : wf_node File
| wf_Dir (children : list (str * node)) :
    (forall name child, In (name, child) children ->
                        plain name /\ wf_node child) ->
    wf_node (Dir children).

(** The effects of [_add_to_zip] on a directory, in order: a directory is
    listed, or a file is handed to [zipf.write] under an archive name (no
    name when [relpath] refuses the path). *)
Inductive step : Type :=
| Scan (top : str)
| Write (file_path : str) (arc_path : option str).

Definition write_step (source arcname root file : str) : step :=
  let file_path := os_path_join root file in
  Write file_path
        (option_map (os_path_join arcname) (os_path_relpath file_path source)).

Definition kept (name : str) : bool := negb (_should_exclude name).

Fixpoint trace (source arcname : str) (n : node) (top : str) {struct n}
  : list step :=
  match n with
  | File => []
  | Dir children =>
      let below := map (fun p => (fst p, trace source arcname (snd p))) children in
      Scan top
      :: map (write_step source arcname top)
             (filter kept (nondir_names children))
      ++ flat_map (fun d => match assoc d below with
                            | Some steps => steps (os_path_join top d)
                            | None => []
                            end)
                  (filter kept (dir_names children))
  end.

Definition run_step (zipf : str) (st : step) : M state unit :=
  match st with
  | Scan top => modify (add_scanned top)
  | Write file_path (Some arc_path) => zip_write zipf file_path arc_path
  | Write _ None => raise ValueError
  end.

Definition step_ok (st : step) : bool :=
  match st with
  | Scan _ => true
  | Write file_path (Some _) => can_read file_path
  | Write _ None => false
  end.

Definition step_exn (st : step) : exn :=
  match st with
  | Write _ None => ValueError
  | _ => PermissionError
  end.

Definition step_effect (zipf : str) (s : state) (st : step) : state :=
  match st with
  | Scan top => add_scanned top s
  | Write file_path (Some arc_path) =>
      update_releases zipf (add_entry file_path arc_path) s
  | Write _ None => s
  end.

(** The steps that run before the first one that fails. *)
Fixpoint done_steps (steps : list step) : list step :=
  match steps with
  | [] => []
  | st :: rest => if step_ok st then st :: done_steps rest else []
  end.

(** The exception of the first step that fails. *)
Fixpoint failure (steps : list step) : option exn :=
  match steps with
  | [] => None
  | st :: rest => if step_ok st then failure rest else Some (step_exn st)
  end.

Definition finish {A : Type} (e : option exn) (a : A) : outcome A :=
  match e with
  | None => Ok a
  | Some e => Raise e
  end.

Definition scans (steps : list step) : list str :=
  flat_map (fun st => match st with Scan top => [top] | Write _ _ => [] end)
           steps.

Definition writes (steps : list step) : list (str * str) :=
  flat_map (fun st => match st with
                      | Write file_path (Some arc_path) =>
                          [(file_path, arc_path)]
                      | _ => []
                      end) steps.

Definition add_entries (ws : list (str * str)) (f : outfile) : outfile :=
  mkOutfile (locked f) (closed f) (entries f ++ ws).

(** The file of the output directory under a name. *)
Definition file_at (filename : str) (s : state) : option outfile :=
  match releases s with
  | Some out => assoc filename out
  | None => None
  end.

(** A name the walk lets through. *)
Definition allowed (name : str) : Prop := plain name /\ ~ excluded_name name.

(** A step of a walk from [source]: it lists a directory, or writes a file,
    reached from [source] through allowed names only; the archive name of a
    file is the archive name of [source] followed by the same names. *)
Definition step_fine (source arcname : str) (st : step) : Prop :=
  match st with
  | Scan top =>
      exists rel, segments top = segments source ++ rel /\ Forall allowed rel
  | Write file_path arc =>
      exists rel arc_path,
        rel <> [] /\ Forall allowed rel /\
        segments file_path = segments source ++ rel /\
        arc = Some arc_path /\
        segments arc_path = segments arcname ++ rel
  end.

(** The file name a build computes from the manifest, when the name of the
    extension is a string. *)
Definition archive_name (d : dict) (suffix : str) : option str :=
  match dict_get (py "name") (JStr (py "extension")) d with
  | JStr n =>
      Some (slugify n ++ py "-v"
            ++ render_json (dict_get (py "version") (JStr (py "0.0.0")) d)
            ++ suffix ++ py ".zip")
  | JOther _ => None
  end.

(** What one listed item makes [_create_package] do. *)
Definition item_steps (item : str) : list step :=
  let source := os_path_join project_root item in
  match stat item with
  | None => []
  | Some File =>
      if _should_exclude source then [] else [Write source (Some item)]
  | Some (Dir children) => trace source item (Dir children) source
  end.

Definition package_steps (files : list str) : list step :=
  flat_map item_steps files.

(** The three lines printed when the output file cannot be removed. *)
Definition locked_messages (filename : str) : list str :=
  [newline :: py "  Error: Cannot overwrite " ++ filename;
   py "  The file may be open in another program.";
   py "  Close the file and try again." ++ [newline]].

(** The state once the old output file is gone and the new archive is
    open. *)
Definition opened (filename : str) (out : list (str * outfile)) (s : state)
  : state :=
  set_releases
    (Some (assoc_remove filename out ++ [(filename, mkOutfile false false [])]))
    s.

(** The state a build leaves once the archive has been open: the steps that
    ran, then the archive closed. *)
Definition built (filename : str) (out : list (str * outfile))
  (steps : list step) (s : state) : state :=
  update_releases filename close_file
    (fold_left (step_effect filename) (done_steps steps)
               (opened filename out s)).

(** The archive entries one listed item contributes. *)
Definition item_entries (item : str) : list (str * str) :=
  writes (item_steps item).

(** The three numbers a bump reads in a version, when [int] accepts the
    three components. *)
Definition read_version (version : str) : option (Z * Z * Z) :=
  match int (component 0 version), int (component 1 version),
        int (component 2 version) with
  | Some major, Some minor, Some patch => Some (major, minor, patch)
  | _, _, _ => None
  end.

(** The order of versions: by major, then minor, then patch. *)
Definition version_lt (v w : Z * Z * Z) : Prop :=
  let '(a, b, c) := v in
  let '(a', b', c') := w in
  (a < a' \/ (a = a' /\ (b < b' \/ (b = b' /\ c < c'))))%Z.

(** What is found in a tree by following names from its top. *)
Fixpoint node_at (n : node) (rel : list str) : option node :=
  match rel with
  | [] => Some n
  | name :: rest =>
      match n with
      | Dir children =>
          match assoc name children with
          | Some child => node_at child rest
          | None => None
          end
      | File => None
      end
  end.


(** The state once [build_all] has made sure of the output directory. *)
Definition with_output_dir (s : state) : state :=
  match releases s with
  | None => set_releases (Some []) s
  | Some _ => s
  end.

End Release.

Arguments json : clear implicits.
Arguments dict : clear implicits.
Arguments state : clear implicits.
Arguments summary : clear implicits.

(* ================================================================== *)
(** * Sample projects *)
(* ================================================================== *)

(** A manifest whose values are strings or integers; an integer is rendered
    in decimal. *)
Definition manifest_of (version : str) : dict Z :=
  [(py "manifest_version", JOther 3%Z);
   (py "name", JStr (py "YouTube Auto Liker"));
   (py "version", JStr version);
   (py "description", JStr (py "Likes the videos you watch"));
   (py "homepage_url", JStr (py "https://example.org/liker"))].

(** The state after the manifest has been loaded, with a given output
    directory. *)
Definition loaded (version : str) (out : option (list (str * outfile)))
  : state Z :=
  mkState (manifest_of version) (manifest_of version) out [] [].

Definition demo_root : str := py "/home/dev/liker".

Definition readable (_ : str) : bool := true.

(** A source directory with a dependency cache, a compiled file and an old
    archive in it. *)
Definition demo_src : list (str * node) :=
  [(py "content.js", File);
   (py "node_modules", Dir [(py "big.bin", File)]);
   (py "lib", Dir [(py "util.js", File); (py "util.pyc", File)]);
   (py "old.zip", File)].

(** A project with no privacy policy and no changelog. *)
Definition demo_project : list (str * node) :=
  [(py "manifest.json", File);
   (py "README.md", File);
   (py "LICENSE", File);
   (py "icons", Dir [(py "icon.png", File); (py "Thumbs.db", File)]);
   (py "src", Dir demo_src)].

Definition demo_env : Env Z :=
  {| render := str_of_int; project_root := demo_root;
     project := demo_project; can_read := readable |}.

Definition store_zip : str := py "youtube-auto-liker-v1.2.3-store.zip".

Definition full_zip : str := py "youtube-auto-liker-v1.2.3.zip".

(** The walk of [src] into an archive that is open and empty. *)
Definition demo_open : state Z :=
  loaded (py "1.2.3") (Some [(store_zip, mkOutfile false false [])]).

Definition demo_walk : outcome unit * state Z :=
  _add_to_zip (env := demo_env) store_zip (os_path_join demo_root (py "src"))
              (Dir demo_src) (Some (py "src")) demo_open.

(** The build of both packages of the project. *)
Definition demo_build : outcome (summary Z) * state Z :=
  build_all (env := demo_env) (loaded (py "1.2.3") None).

(** A store archive left by an earlier run, which cannot be removed. *)
Definition demo_locked : state Z :=
  loaded (py "1.2.3")
         (Some [(store_zip, mkOutfile true true [(py "stale", py "stale")])]).




(** The project, kept under a directory called [docs]. *)
Definition docs_root : str := py "/home/dev/docs/liker".

Definition docs_env : Env Z :=
  {| render := str_of_int; project_root := docs_root;
     project := demo_project; can_read := readable |}.

Definition docs_build : outcome (summary Z) * state Z :=
  build_all (env := docs_env) (loaded (py "1.2.3") None).

(** The project, kept under a directory called [scripts]. *)
Definition scripts_root : str := py "/home/dev/scripts/liker".

Definition scripts_env : Env Z :=
  {| render := str_of_int; project_root := scripts_root;
     project := demo_project; can_read := readable |}.

Definition scripts_build : outcome (summary Z) * state Z :=
  build_all (env := scripts_env) (loaded (py "1.2.3") None).

(** A manifest with neither name nor version, loaded, with no output
    directory yet. *)
Definition bare_manifest : dict Z := [(py "manifest_version", JOther 3%Z)].

Definition bare : state Z :=
  mkState bare_manifest bare_manifest None [] [].

(** An output directory that holds the full archive of the version
    before. *)
Definition old_zip : str := py "youtube-auto-liker-v1.2.2.zip".

Definition with_old : state Z :=
  loaded (py "1.2.3")
         (Some [(old_zip,
                 mkOutfile false true
                   [(py "/home/dev/liker/manifest.json", py "manifest.json")])]).

(** A full archive left by an earlier run, which cannot be removed. *)
Definition full_locked : state Z :=
  loaded (py "1.2.3")
         (Some [(full_zip, mkOutfile true true [(py "stale", py "stale")])]).

(** Names of directory entries, and trees, given in full. *)
Ltac prove_plain :=
  split;
  [ discriminate
  | let H := fresh "H" in
    simpl; intros H;
    repeat (destruct H as [H | H]; [discriminate H|]); exact H ].

Ltac prove_wf :=
  lazymatch goal with
  | |- wf_node File => apply wf_File
  | |- wf_node (Dir _) =>
      let H := fresh "H" in
      apply wf_Dir; intros ? ? H; cbv in H;
      repeat (destruct H as [H | H];
              [injection H as <- <-; split; [prove_plain | prove_wf] |]);
      contradiction
  end.

(* ================================================================== *)
(** * Properties *)
(* ================================================================== *)

Section Properties.

Context {value : Type} {env : Env value}.

(** Within this section the types of the script are those over [value]. *)
Local Abbreviation json := (json value).
Local Abbreviation dict := (dict value).
Local Abbreviation state := (state value).
Local Abbreviation summary := (summary value).

Set Default Proof Using "Type".

(** ** Strings *)

Lemma str_eqb_eq a b : str_eqb a b = true <-> a = b.
Proof.
  revert b. induction a as [|x a IH]; intros [|y b]; simpl;
    try (split; [discriminate | discriminate]); [split; reflexivity|].
  rewrite andb_true_iff, Ascii.eqb_eq, IH. split.
  - intros [-> ->]. reflexivity.
  - intros E. injection E as -> ->. now split.
Qed.

Lemma str_eqb_neq a b : str_eqb a b = false <-> a <> b.
Proof.
  rewrite <- str_eqb_eq. destruct (str_eqb a b); split; congruence.
Qed.

Lemma str_eqb_refl a : str_eqb a a = true.
Proof. now apply str_eqb_eq. Qed.

Lemma str_in_In x l : str_in x l = true <-> In x l.
Proof.
  unfold str_in. rewrite existsb_exists. split.
  - intros (y & Hy & E). apply str_eqb_eq in E. now subst.
  - intros H. exists x. split; [assumption | apply str_eqb_refl].
Qed.

Lemma ascii_eqb_true a b : Ascii.eqb a b = true <-> a = b.
Proof. apply Ascii.eqb_eq. Qed.

Lemma startswith_app s p : startswith (p ++ s) p = true.
Proof.
  induction p as [|a p IH]; simpl; [reflexivity|].
  now rewrite Ascii.eqb_refl, IH.
Qed.

Lemma startswith_inv s p : startswith s p = true -> exists r, s = p ++ r.
Proof.
  revert s. induction p as [|a p IH]; intros s H.
  - now exists s.
  - destruct s as [|b s]; simpl in H; [discriminate|].
    apply andb_true_iff in H. destruct H as [E H].
    apply Ascii.eqb_eq in E. subst b.
    destruct (IH _ H) as [r ->]. now exists r.
Qed.

Lemma endswith_app s p : endswith (s ++ p) p = true.
Proof. unfold endswith. rewrite rev_app_distr. apply startswith_app. Qed.

Lemma endswith_inv s p : endswith s p = true -> exists front, s = front ++ p.
Proof.
  unfold endswith. intros H. apply startswith_inv in H. destruct H as [r H].
  exists (rev r). apply (f_equal (@rev ascii)) in H.
  now rewrite rev_involutive, rev_app_distr, rev_involutive in H.
Qed.

(** ** The slug *)

Lemma hyphen_not_az09 : is_az09 hyphen = false.
Proof. reflexivity. Qed.

Lemma lower_char_slug_char c : slug_char c -> lower_char c = c.
Proof.
  intros [H | ->]; [|reflexivity].
  destruct c as [[] [] [] [] [] [] [] []]; try reflexivity; discriminate H.
Qed.

Lemma lower_slug_chars s : Forall slug_char s -> lower s = s.
Proof.
  induction 1 as [|c s Hc _ IH]; simpl; [reflexivity|].
  now rewrite (lower_char_slug_char _ Hc), IH.
Qed.

Lemma re_sub_run_chars b s : Forall slug_char (re_sub_run b s).
Proof.
  revert b. induction s as [|c s IH]; intros b; simpl; [constructor|].
  destruct (is_az09 c) eqn:E.
  - constructor; [now left | apply IH].
  - destruct b; [apply IH|]. constructor; [now right | apply IH].
Qed.

Lemma re_sub_run_true_head s : no_leading_hyphen (re_sub_run true s).
Proof.
  induction s as [|c s IH]; simpl; [exact I|].
  destruct (is_az09 c) eqn:E; [|exact IH].
  simpl. intros ->. now rewrite hyphen_not_az09 in E.
Qed.

Lemma re_sub_run_single b s : single_hyphens (re_sub_run b s).
Proof.
  revert b. induction s as [|c s IH]; intros b; simpl; [exact I|].
  destruct (is_az09 c) eqn:E.
  - specialize (IH false). destruct (re_sub_run false s) eqn:R; [exact I|].
    split; [|exact IH]. intros [-> _]. now rewrite hyphen_not_az09 in E.
  - destruct b; [apply IH|].
    specialize (IH true). pose proof (re_sub_run_true_head s) as Hh.
    destruct (re_sub_run true s) eqn:R; [exact I|].
    split; [|exact IH]. intros [_ ->]. now apply Hh.
Qed.

(** On a string that is already in slug form the substitution finds only
    single hyphens, and puts them back. *)
Lemma re_sub_run_fixed b s :
  Forall slug_char s -> single_hyphens s ->
  (b = true -> no_leading_hyphen s) ->
  re_sub_run b s = s.
Proof.
  revert b. induction s as [|c s IH]; intros b Hc Hs Hb; [reflexivity|].
  inversion Hc as [|? ? Hc1 Hc2]; subst.
  assert (Hs' : single_hyphens s) by (destruct s; [exact I | apply Hs]).
  simpl. destruct (is_az09 c) eqn:E.
  - f_equal. apply IH; auto. discriminate.
  - destruct Hc1 as [Hc1 | ->]; [congruence|].
    destruct b; [exfalso; now apply (Hb eq_refl)|].
    f_equal. apply IH; auto. intros _.
    destruct s as [|d s]; [exact I|]. simpl. intros ->. now apply Hs.
Qed.

Lemma lstrip_split c s :
  exists front, s = front ++ lstrip c s /\ Forall (eq c) front.
Proof.
  induction s as [|a s (front & E & F)]; simpl.
  - exists []. split; [reflexivity | constructor].
  - destruct (Ascii.eqb a c) eqn:H.
    + apply Ascii.eqb_eq in H. subst a. exists (c :: front). split.
      * simpl. now f_equal.
      * now constructor.
    + exists []. split; [reflexivity | constructor].
Qed.

Lemma lstrip_head c s : match lstrip c s with a :: _ => a <> c | [] => True end.
Proof.
  induction s as [|a s IH]; simpl; [exact I|].
  destruct (Ascii.eqb a c) eqn:H; [exact IH|].
  simpl. now apply Ascii.eqb_neq.
Qed.

Lemma lstrip_fixed c s :
  match s with a :: _ => a <> c | [] => True end -> lstrip c s = s.
Proof.
  destruct s as [|a s]; simpl; [reflexivity|].
  intros H. apply Ascii.eqb_neq in H. now rewrite H.
Qed.

Lemma strip_split c s :
  exists front back, s = front ++ strip c s ++ back.
Proof.
  unfold strip, rstrip.
  destruct (lstrip_split c (rev s)) as (b & Eb & _).
  destruct (lstrip_split c (rev (lstrip c (rev s)))) as (f & Ef & _).
  exists f, (rev b).
  rewrite app_assoc, <- Ef, <- rev_app_distr, <- Eb.
  now rewrite rev_involutive.
Qed.

Lemma rstrip_last c s r : rstrip c s <> r ++ [c].
Proof.
  unfold rstrip. intros H. apply (f_equal (@rev ascii)) in H.
  rewrite rev_involutive, rev_app_distr in H. simpl in H.
  pose proof (lstrip_head c (rev s)) as Hh. rewrite H in Hh. now apply Hh.
Qed.

Lemma strip_last c s r : strip c s <> r ++ [c].
Proof.
  unfold strip. intros H.
  destruct (lstrip_split c (rstrip c s)) as (front & E & _).
  rewrite H, app_assoc in E. now apply rstrip_last in E.
Qed.

Lemma strip_fixed c s :
  match s with a :: _ => a <> c | [] => True end ->
  (forall r, s <> r ++ [c]) ->
  strip c s = s.
Proof.
  intros Hh Hl. unfold strip.
  assert (E : rstrip c s = s).
  { unfold rstrip. rewrite lstrip_fixed; [apply rev_involutive|].
    destruct (rev s) as [|a t] eqn:R; [exact I|].
    intros ->. apply (Hl (rev t)).
    rewrite <- (rev_involutive s), R. reflexivity. }
  rewrite E. now apply lstrip_fixed.
Qed.

Lemma single_hyphens_app a b :
  single_hyphens (a ++ b) -> single_hyphens a /\ single_hyphens b.
Proof.
  induction a as [|x a IH]; intros H; [now split|].
  assert (Ht : single_hyphens (a ++ b)).
  { simpl in H. destruct (a ++ b); [exact I | apply H]. }
  destruct (IH Ht) as [Ha Hb]. split; [|exact Hb].
  destruct a as [|y a]; [exact I|]. split; [|exact Ha].
  simpl in H. apply H.
Qed.

Lemma single_hyphens_no_double s a b :
  single_hyphens s -> s <> a ++ hyphen :: hyphen :: b.
Proof.
  intros H E. subst s. apply single_hyphens_app in H. destruct H as [_ H].
  simpl in H. now apply (proj1 H).
Qed.

Lemma is_az09_letters c :
  is_az09 c = true -> In c (py "abcdefghijklmnopqrstuvwxyz0123456789").
Proof.
  destruct c as [[] [] [] [] [] [] [] []]; intros H; try discriminate H;
    clear H; simpl; repeat (first [left; reflexivity | right]).
Qed.

(** The slug is in slug form: characters, hyphens one at a time, none at
    either end. *)
Lemma slugify_form name :
  Forall slug_char (slugify name) /\ single_hyphens (slugify name) /\
  no_leading_hyphen (slugify name) /\
  (forall r, slugify name <> r ++ [hyphen]).
Proof.
  unfold slugify, re_sub_non_az09.
  set (t := re_sub_run false (lower name)).
  destruct (strip_split hyphen t) as (front & back & E).
  pose proof (re_sub_run_chars false (lower name)) as Hc.
  pose proof (re_sub_run_single false (lower name)) as Hs.
  fold t in Hc, Hs. rewrite E in Hc, Hs.
  apply Forall_app in Hc. destruct Hc as [_ Hc].
  apply Forall_app in Hc. destruct Hc as [Hc _].
  apply single_hyphens_app in Hs. destruct Hs as [_ Hs].
  apply single_hyphens_app in Hs. destruct Hs as [Hs _].
  repeat split; auto.
  - unfold strip. apply lstrip_head.
  - intros r. apply strip_last.
Qed.

(** C3. For every name, slugging the slug of the name gives the slug again;
    the slug holds only lower-case ASCII letters, decimal digits and
    hyphens; it neither starts nor ends with a hyphen and has no two hyphens
    in a row. *)
Theorem slug_idempotent (name : str) :
  slugify (slugify name) = slugify name /\
  Forall (fun c => In c (py "abcdefghijklmnopqrstuvwxyz0123456789-"))
         (slugify name) /\
  (forall r, slugify name <> hyphen :: r) /\
  (forall r, slugify name <> r ++ [hyphen]) /\
  (forall a b, slugify name <> a ++ hyphen :: hyphen :: b).
Proof.
  destruct (slugify_form name) as (Hc & Hs & Hh & Hl).
  split; [|split; [|split; [|split]]].
  - unfold slugify at 1. rewrite (lower_slug_chars _ Hc).
    unfold re_sub_non_az09.
    rewrite re_sub_run_fixed by (trivial; discriminate).
    now apply strip_fixed.
  - eapply Forall_impl; [|exact Hc]. intros c [H | ->].
    + apply is_az09_letters in H.
      change (py "abcdefghijklmnopqrstuvwxyz0123456789-")
        with (py "abcdefghijklmnopqrstuvwxyz0123456789" ++ [hyphen]).
      apply in_or_app. now left.
    + change (py "abcdefghijklmnopqrstuvwxyz0123456789-")
        with (py "abcdefghijklmnopqrstuvwxyz0123456789" ++ [hyphen]).
      apply in_or_app. right. now left.
  - intros r E. rewrite E in Hh. now apply Hh.
  - exact Hl.
  - intros a b. now apply single_hyphens_no_double.
Qed.

(** ** Splitting and joining *)

Lemma split_not_nil c s : split c s <> [].
Proof.
  destruct s as [|a s]; simpl; [discriminate|].
  destruct (Ascii.eqb a c); [discriminate|].
  destruct (split c s); discriminate.
Qed.

Lemma split_no_sep c s : ~ In c s -> split c s = [s].
Proof.
  induction s as [|a s IH]; intros H; [reflexivity|].
  simpl. destruct (Ascii.eqb a c) eqn:E.
  - apply Ascii.eqb_eq in E. subst a. exfalso. apply H. now left.
  - rewrite IH; [reflexivity|]. intros Hin. apply H. now right.
Qed.

(** A separator cuts the pieces of what is before it from the pieces of what
    is after it. *)
Lemma split_app_sep c x y : split c (x ++ c :: y) = split c x ++ split c y.
Proof.
  induction x as [|a x IH]; simpl.
  - now rewrite Ascii.eqb_refl.
  - destruct (Ascii.eqb a c) eqn:E; rewrite IH; [reflexivity|].
    pose proof (split_not_nil c x) as Hn.
    destruct (split c x); [contradiction | reflexivity].
Qed.

(** ** Integers as text *)

Lemma uint_chars d :
  Forall (fun c => is_digit c = true)
         (list_ascii_of_string (NilEmpty.string_of_uint d)).
Proof.
  induction d; simpl; constructor; auto.
Qed.

Lemma str_of_int_chars z :
  Forall (fun c => is_digit c = true \/ c = "-"%char) (str_of_int z).
Proof.
  unfold str_of_int, py, NilZero.string_of_int, NilZero.string_of_uint.
  assert (H : forall d, Forall (fun c => is_digit c = true \/ c = "-"%char)
                (list_ascii_of_string (NilEmpty.string_of_uint d))).
  { intros d. eapply Forall_impl; [|apply uint_chars]. intros c Hc. now left. }
  destruct (Z.to_int z) as [d | d].
  - destruct d; try apply H. simpl. constructor; [now left | constructor].
  - simpl. constructor; [now right|].
    destruct d; try apply H. simpl. constructor; [now left | constructor].
Qed.

Lemma str_of_int_no_dot z : ~ In "."%char (str_of_int z).
Proof.
  intros H. pose proof (str_of_int_chars z) as F.
  rewrite Forall_forall in F. destruct (F _ H) as [D | D]; discriminate D.
Qed.

(** A version written from three integers splits back into them. *)
Lemma split_format_version a b c :
  split "." (format_version (a, b, c)) =
  [str_of_int a; str_of_int b; str_of_int c].
Proof.
  unfold format_version. change (py ".") with ["."%char]. simpl app.
  rewrite !split_app_sep.
  now rewrite !split_no_sep by apply str_of_int_no_dot.
Qed.

(** ** The version bump *)

Implicit Types (s : state) (d : dict).

(** After padding, the component at one of the three places is the one the
    version has there, or ["0"] where it has none. *)
Lemma nth_pad3 i parts :
  i < 3 -> nth i (pad3 parts) [] = nth i parts (py "0").
Proof.
  intros Hi. unfold pad3.
  destruct (Nat.lt_ge_cases i (List.length parts)) as [H | H].
  - rewrite app_nth1 by assumption. now apply nth_indep.
  - rewrite app_nth2 by assumption.
    rewrite (nth_overflow parts) by assumption.
    rewrite nth_repeat_lt by lia. reflexivity.
Qed.

Lemma pad3_length parts : 3 <= List.length (pad3 parts).
Proof. unfold pad3. rewrite length_app, repeat_length. lia. Qed.

Lemma pad3_long parts : 3 <= List.length parts -> pad3 parts = parts.
Proof.
  intros H. unfold pad3. replace (3 - List.length parts) with 0 by lia.
  apply app_nil_r.
Qed.

Lemma bump_version_run s bump_type old major minor patch :
  dict_get (py "version") (JStr (py "0.0.0")) (manifest_data s) = JStr old ->
  int (component 0 old) = Some major ->
  int (component 1 old) = Some minor ->
  int (component 2 old) = Some patch ->
  bump_version bump_type s =
  (Ok (old, format_version (bumped bump_type major minor patch)),
   bumped_state (format_version (bumped bump_type major minor patch)) s).
Proof.
  unfold component. intros Hv H0 H1 H2.
  unfold bump_version, bind, version, gets. rewrite Hv.
  rewrite !nth_pad3 by lia. unfold int_of. rewrite H0, H1, H2.
  reflexivity.
Qed.

(** A component that [int] refuses stops the bump before anything is
    changed. *)
Lemma bump_version_refused s bump_type old i :
  dict_get (py "version") (JStr (py "0.0.0")) (manifest_data s) = JStr old ->
  i < 3 -> int (component i old) = None ->
  bump_version bump_type s = (Raise ValueError, s).
Proof.
  intros Hv Hi Hnone. unfold component in Hnone.
  unfold bump_version, bind, version, gets. rewrite Hv.
  rewrite !nth_pad3 by lia. unfold int_of.
  destruct i as [|[|[|i]]]; [| | |lia].
  - now rewrite Hnone.
  - destruct (int (nth 0 _ _)); [|reflexivity]. now rewrite Hnone.
  - destruct (int (nth 0 _ _)); [|reflexivity].
    destruct (int (nth 1 _ _)); [|reflexivity]. now rewrite Hnone.
Qed.

(** C1. The version is split on the dots and padded with ["0"] to three
    components, which are read as integers: [component i] is the one at
    place [i], ["0"] where the version has none.  Unless [int] refuses one
    of the three (the call then raises), [major] bumps the first and zeroes
    the other two, [minor] bumps the second and zeroes the third, [patch]
    bumps the third; the new version is written with exactly three
    components, whatever the old one had, and the call returns the old and
    the new version, the new one persisted. *)
Theorem bump_version_rule (s : state) (bump_type old : str) :
  dict_get (py "version") (JStr (py "0.0.0")) (manifest_data s) = JStr old ->
  (forall i, i < 3 ->
     nth i (pad3 (split "." old)) [] = component i old) /\
  ((exists i, i < 3 /\ int (component i old) = None /\
              bump_version bump_type s = (Raise ValueError, s)) \/
   (exists major minor patch a b c : Z,
      int (component 0 old) = Some major /\
      int (component 1 old) = Some minor /\
      int (component 2 old) = Some patch /\
      (bump_type = py "major" -> (a, b, c) = (major + 1, 0, 0)%Z) /\
      (bump_type = py "minor" -> (a, b, c) = (major, minor + 1, 0)%Z) /\
      (bump_type = py "patch" -> (a, b, c) = (major, minor, patch + 1)%Z) /\
      let new_version :=
        str_of_int a ++ py "." ++ str_of_int b ++ py "." ++ str_of_int c in
      split "." new_version = [str_of_int a; str_of_int b; str_of_int c] /\
      bump_version bump_type s =
        (Ok (old, new_version), bumped_state new_version s) /\
      manifest_file (bumped_state new_version s) =
        dict_set (py "version") (JStr new_version) (manifest_data s))).
Proof.
  intros Hv. split; [intros i Hi; now apply nth_pad3|].
  destruct (int (component 0 old)) as [major|] eqn:H0;
    [|left; exists 0; repeat split;
      [lia | assumption | apply bump_version_refused with old 0;
         [assumption | lia | assumption]]].
  destruct (int (component 1 old)) as [minor|] eqn:H1;
    [|left; exists 1; repeat split;
      [lia | assumption | apply bump_version_refused with old 1;
         [assumption | lia | assumption]]].
  destruct (int (component 2 old)) as [patch|] eqn:H2;
    [|left; exists 2; repeat split;
      [lia | assumption | apply bump_version_refused with old 2;
         [assumption | lia | assumption]]].
  right.
  pose proof (bump_version_run s bump_type _ _ _ _ Hv H0 H1 H2) as Hrun.
  destruct (bumped bump_type major minor patch) as [[a b] c] eqn:Hb.
  exists major, minor, patch, a, b, c. unfold bumped in Hb.
  split; [reflexivity|]. split; [reflexivity|]. split; [reflexivity|].
  split; [intros ->; simpl in Hb; congruence|].
  split; [intros ->; simpl in Hb; congruence|].
  split; [intros ->; simpl in Hb; congruence|].
  cbv zeta. split; [apply (split_format_version a b c)|].
  split; [exact Hrun | reflexivity].
Qed.

(** C10. A [bump_type] that is neither ['major'] nor ['minor'], whatever
    string it is, is not rejected: the call does what [bump_version('patch')]
    does.  On a version whose three components [int] accepts it returns the
    old version and the new one, written from the same major and minor and
    from the patch plus one, and persists the new one; it raises only where
    a patch bump raises, on a component [int] refuses. *)
Theorem unknown_bump_type_is_patch (s : state) (bump_type : str) :
  bump_type <> py "major" -> bump_type <> py "minor" ->
  bump_version bump_type s = bump_version (py "patch") s /\
  (forall (old : str) (major minor patch : Z),
     dict_get (py "version") (JStr (py "0.0.0")) (manifest_data s) = JStr old ->
     int (component 0 old) = Some major ->
     int (component 1 old) = Some minor ->
     int (component 2 old) = Some patch ->
     let new_version :=
       str_of_int major ++ py "." ++ str_of_int minor ++ py "."
       ++ str_of_int (patch + 1) in
     split "." new_version =
       [str_of_int major; str_of_int minor; str_of_int (patch + 1)] /\
     bump_version bump_type s =
       (Ok (old, new_version), bumped_state new_version s) /\
     manifest_file (bumped_state new_version s) =
       dict_set (py "version") (JStr new_version) (manifest_data s)) /\
  (forall (old : str) (i : nat),
     dict_get (py "version") (JStr (py "0.0.0")) (manifest_data s) = JStr old ->
     i < 3 -> int (component i old) = None ->
     bump_version bump_type s = (Raise ValueError, s)).
Proof.
  intros Hmajor Hminor.
  assert (Hb : forall major minor patch,
             bumped bump_type major minor patch = (major, minor, patch + 1)%Z).
  { intros. unfold bumped.
    apply str_eqb_neq in Hmajor, Hminor. now rewrite Hmajor, Hminor. }
  split; [|split].
  - unfold bump_version, bind.
    destruct (version s) as [[[old | v] | e] s1]; try reflexivity.
    destruct (int_of _ s1) as [[major | e] s2]; [|reflexivity].
    destruct (int_of _ s2) as [[minor | e] s3]; [|reflexivity].
    destruct (int_of _ s3) as [[patch | e] s4]; [|reflexivity].
    now rewrite Hb.
  - intros old major minor patch Hv H0 H1 H2. cbv zeta.
    pose proof (bump_version_run s bump_type _ _ _ _ Hv H0 H1 H2) as Hrun.
    rewrite Hb in Hrun.
    split; [apply (split_format_version major minor (patch + 1))|].
    split; [exact Hrun | reflexivity].
  - intros old i Hv Hi Hnone. now apply bump_version_refused with old i.
Qed.

Lemma skip_spaces_keeps c (s : str) :
  In c s -> is_space c = false -> In c (skip_spaces s).
Proof.
  intros Hin Hc. induction s as [|a s IH]; [contradiction|].
  simpl. destruct (is_space a) eqn:E; [|exact Hin].
  destruct Hin as [-> | Hin]; [congruence | now apply IH].
Qed.

Lemma scan_digits_keeps c (s : str) : forall acc b v rest,
  scan_digits acc b s = Some (v, rest) ->
  In c s -> is_digit c = false -> c <> "_"%char -> In c rest.
Proof.
  induction s as [|a s IH]; intros acc b v rest H Hin Hd Hu; [contradiction|].
  simpl in H. unfold digit_val in H. fold (is_digit a) in H.
  destruct (is_digit a) eqn:Da.
  - destruct Hin as [-> | Hin]; [congruence | eapply IH; eauto].
  - destruct (Ascii.eqb a "_") eqn:Ua.
    + apply Ascii.eqb_eq in Ua. subst a.
      destruct b; [discriminate|].
      destruct Hin as [<- | Hin]; [congruence | eapply IH; eauto].
    + destruct b; [discriminate|]. now inversion H; subst.
Qed.

(** A component with a foreign character in it is no integer for [int]. *)
Lemma int_rejects_foreign c (s : str) : In c s -> foreign_char c -> int s = None.
Proof.
  intros Hin (Hd & Hs & Hu & Hp & Hm). unfold int.
  pose proof (skip_spaces_keeps _ _ Hin Hs) as H1.
  set (s1 := skip_spaces s) in *.
  assert (H2 : forall (neg : bool) (s2 : str),
    In c s2 ->
    match s2 with
    | a :: _ =>
        match digit_val a with
        | Some _ =>
            match scan_digits 0 false s2 with
            | Some (v, rest) =>
                match skip_spaces rest with
                | [] => Some (if (neg : bool) then (- v)%Z else v)
                | _ :: _ => None
                end
            | None => None
            end
        | None => None
        end
    | [] => None
    end = None).
  { intros neg s2 Hin2. destruct s2 as [|a s2]; [reflexivity|].
    destruct (digit_val a); [|reflexivity].
    destruct (scan_digits 0 false (a :: s2)) as [[v rest]|] eqn:E;
      [|reflexivity].
    assert (Hr : In c rest) by (eapply scan_digits_keeps; eauto).
    pose proof (skip_spaces_keeps _ _ Hr Hs) as Hr'.
    destruct (skip_spaces rest); [contradiction | reflexivity]. }
  destruct s1 as [|a r]; [contradiction|].
  destruct (Ascii.eqb a "+") eqn:Ep.
  - apply Ascii.eqb_eq in Ep. subst a. apply (H2 false r).
    destruct H1 as [E | H1]; [congruence | exact H1].
  - destruct (Ascii.eqb a "-") eqn:Em.
    + apply Ascii.eqb_eq in Em. subst a. apply (H2 true r).
      destruct H1 as [E | H1]; [congruence | exact H1].
    + apply (H2 false (a :: r)). exact H1.
Qed.

(** C5, as the code has it.  When one of the three components the bump
    reads (the first three of the version, ["0"] standing in for a missing
    one) is no integer for [int], the call raises [ValueError]; nothing has
    been changed or written by then.  A component holding a character that
    is no digit, underscore, sign or blank is such a component.  What
    follows the third component is never read. *)
Theorem bad_component_rejected (s : state) (bump_type old : str) (i : nat) :
  dict_get (py "version") (JStr (py "0.0.0")) (manifest_data s) = JStr old ->
  i < 3 ->
  int (component i old) = None \/
    (exists c, In c (component i old) /\ foreign_char c) ->
  bump_version bump_type s = (Raise ValueError, s).
Proof.
  intros Hv Hi Hbad. apply bump_version_refused with old i; auto.
  destruct Hbad as [H | (c & Hin & Hc)]; [exact H|].
  now apply int_rejects_foreign with c.
Qed.

(** ** The manifest on disk *)

Lemma assoc_dict_set_same key v d : assoc key (dict_set key v d) = Some v.
Proof.
  induction d as [|[k w] d IH]; simpl.
  - now rewrite str_eqb_refl.
  - destruct (str_eqb k key) eqn:E; simpl; rewrite E; [reflexivity | exact IH].
Qed.

Lemma assoc_dict_set_other key key' v d :
  key' <> key -> assoc key' (dict_set key v d) = assoc key' d.
Proof.
  intros Hne. induction d as [|[k w] d IH]; simpl.
  - destruct (str_eqb key key') eqn:E; [|reflexivity].
    apply str_eqb_eq in E. congruence.
  - destruct (str_eqb k key) eqn:E; simpl.
    + apply str_eqb_eq in E. subst k.
      destruct (str_eqb key key') eqn:E'; [|reflexivity].
      apply str_eqb_eq in E'. congruence.
    + now rewrite IH.
Qed.

Lemma filter_dict_set key v d :
  filter (other_than key) (dict_set key v d) = filter (other_than key) d.
Proof.
  assert (Hk : forall w : json, other_than key (key, w) = false).
  { intros w. unfold other_than. simpl. now rewrite str_eqb_refl. }
  induction d as [|[k w] d IH]; simpl.
  - now rewrite Hk.
  - destruct (str_eqb k key) eqn:E; simpl.
    + apply str_eqb_eq in E. subst k. now rewrite !Hk.
    + now rewrite IH.
Qed.

Lemma keys_dict_set_in key v d :
  In key (map fst d) -> map fst (dict_set key v d) = map fst d.
Proof.
  induction d as [|[k w] d IH]; simpl; [contradiction|].
  intros H. destruct (str_eqb k key) eqn:E; [reflexivity|].
  simpl. f_equal. apply IH. destruct H as [H | H]; [|exact H].
  apply str_eqb_neq in E. congruence.
Qed.

Lemma dict_set_new key v d :
  ~ In key (map fst d) -> dict_set key v d = d ++ [(key, v)].
Proof.
  induction d as [|[k w] d IH]; simpl; [reflexivity|].
  intros H. destruct (str_eqb k key) eqn:E.
  - apply str_eqb_eq in E. exfalso. apply H. now left.
  - f_equal. apply IH. intros Hin. apply H. now right.
Qed.

(** A bump that returns has left the bumped state. *)
Lemma bump_version_ok s bump_type old new s' :
  bump_version bump_type s = (Ok (old, new), s') -> s' = bumped_state new s.
Proof.
  unfold bump_version, bind, version, gets.
  destruct (dict_get _ _ _) as [old0 | v]; [|discriminate].
  unfold int_of.
  destruct (int (nth 0 _ _)); [|discriminate].
  destruct (int (nth 1 _ _)); [|discriminate].
  destruct (int (nth 2 _ _)); [|discriminate].
  simpl. intros H. inversion H; subst. reflexivity.
Qed.

(** C7. When a manifest is loaded and a bump succeeds, what is written back
    is the loaded data with the ['version'] entry set to the new version:
    every other key has the value it had, unknown ones included, and the
    other entries stand in the order they had; an existing ['version'] key
    keeps its place (a missing one is added at the end). *)
Theorem bump_keeps_other_fields (s0 s' : state) (bump_type old new : str) :
  (_load ;; bump_version bump_type) s0 = (Ok (old, new), s') ->
  let loaded := manifest_file s0 in
  let saved := manifest_file s' in
  saved = dict_set (py "version") (JStr new) loaded /\
  (forall key, key <> py "version" -> assoc key saved = assoc key loaded) /\
  assoc (py "version") saved = Some (JStr new) /\
  filter (other_than (py "version")) saved =
    filter (other_than (py "version")) loaded /\
  (In (py "version") (map fst loaded) -> map fst saved = map fst loaded) /\
  (~ In (py "version") (map fst loaded) ->
   saved = loaded ++ [(py "version", JStr new)]).
Proof.
  unfold bind at 1, _load, modify. intros H.
  apply bump_version_ok in H. subst s'. simpl.
  repeat split.
  - intros key Hk. now apply assoc_dict_set_other.
  - apply assoc_dict_set_same.
  - apply filter_dict_set.
  - apply keys_dict_set_in.
  - apply dict_set_new.
Qed.

(** ** Paths *)

Lemma plain_not_rooted name : plain name -> rooted name = false.
Proof.
  intros [Hne Hs]. destruct name as [|a name]; [contradiction|].
  unfold rooted. simpl. rewrite andb_true_r.
  apply Ascii.eqb_neq. intros E. apply Hs. left. now symmetry.
Qed.

Lemma basename_plain name : ~ In sep name -> os_path_basename name = name.
Proof.
  intros H. unfold os_path_basename. now rewrite split_no_sep.
Qed.

Lemma segments_nil : segments [] = [].
Proof. reflexivity. Qed.

Lemma segments_plain name : plain name -> segments name = [name].
Proof.
  intros [Hne Hs]. unfold segments. rewrite split_no_sep by assumption.
  simpl. apply str_eqb_neq in Hne. now rewrite Hne.
Qed.

Lemma segments_app_sep x y :
  segments (x ++ sep :: y) = segments x ++ segments y.
Proof. unfold segments. now rewrite split_app_sep, filter_app. Qed.

Lemma join_not_rooted a b :
  rooted b = false ->
  os_path_join a b =
  match a with
  | [] => b
  | _ :: _ => if endswith a [sep] then a ++ b else a ++ sep :: b
  end.
Proof. unfold os_path_join, rooted. now intros ->. Qed.

(** Joining puts the components of the second path after those of the
    first. *)
Lemma segments_join a b :
  rooted b = false ->
  segments (os_path_join a b) = segments a ++ segments b.
Proof.
  intros Hb. rewrite (join_not_rooted a b Hb).
  destruct a as [|c a]; [reflexivity|].
  destruct (endswith (c :: a) [sep]) eqn:E.
  - apply endswith_inv in E. destruct E as [front E]. rewrite E.
    rewrite <- app_assoc. simpl. rewrite !segments_app_sep.
    rewrite segments_nil, app_nil_r. reflexivity.
  - apply segments_app_sep.
Qed.

Lemma join_head a b :
  a <> [] -> rooted a = false -> rooted b = false ->
  os_path_join a b <> [] /\ rooted (os_path_join a b) = false.
Proof.
  intros Ha Hra Hb. rewrite (join_not_rooted a b Hb).
  destruct a as [|c a]; [contradiction|].
  destruct (endswith (c :: a) [sep]); split; simpl; try discriminate;
    exact Hra.
Qed.

Lemma join_plain_not_nil a name : plain name -> os_path_join a name <> [].
Proof.
  intros Hp. rewrite (join_not_rooted a name (plain_not_rooted _ Hp)).
  destruct Hp as [Hne _].
  destruct a as [|c a]; [exact Hne|].
  destruct (endswith (c :: a) [sep]); discriminate.
Qed.

Lemma fold_join_segments rest : forall acc,
  Forall plain rest -> acc <> [] -> rooted acc = false ->
  segments (fold_left os_path_join rest acc) = segments acc ++ rest /\
  rooted (fold_left os_path_join rest acc) = false.
Proof.
  induction rest as [|x rest IH]; intros acc Hp Ha Hr; simpl.
  - now rewrite app_nil_r.
  - inversion Hp as [|? ? Hx Hrest]; subst.
    pose proof (plain_not_rooted _ Hx) as Hxr.
    destruct (join_head _ _ Ha Hr Hxr) as [Hj Hjr].
    destruct (IH _ Hrest Hj Hjr) as [E R]. split; [|exact R].
    rewrite E, segments_join by assumption.
    rewrite (segments_plain _ Hx), <- app_assoc. reflexivity.
Qed.

Lemma common_prefix_len_app a x :
  common_prefix_len a (a ++ x) = List.length a.
Proof.
  induction a as [|y a IH]; simpl; [now destruct x|].
  now rewrite str_eqb_refl, IH.
Qed.

(** The path of something below [start], relative to [start], is made of the
    names that lead to it. *)
Lemma relpath_below path start rel :
  path <> [] -> segments path = segments start ++ rel ->
  rel <> [] -> Forall plain rel ->
  exists r, os_path_relpath path start = Some r /\
            segments r = rel /\ rooted r = false.
Proof.
  intros Hp Hs Hne Hpl. unfold os_path_relpath.
  destruct path as [|c path]; [contradiction|].
  rewrite Hs, common_prefix_len_app, Nat.sub_diag, skipn_app, skipn_all.
  rewrite Nat.sub_diag. simpl.
  destruct rel as [|first rest]; [contradiction|].
  inversion Hpl as [|? ? Hf Hrest]; subst.
  eexists. split; [reflexivity|].
  destruct (fold_join_segments _ _ Hrest (proj1 Hf) (plain_not_rooted _ Hf))
    as [E R].
  split; [|exact R]. now rewrite E, (segments_plain _ Hf).
Qed.

(** ** The exclusion test *)

Lemma exclude_loop_true patterns name path :
  exclude_loop patterns name path = true <->
  exists pattern, In pattern patterns /\
    if startswith pattern (py "*") then endswith name (tl pattern) = true
    else pattern = name \/ In pattern (split sep path).
Proof.
  induction patterns as [|p patterns IH]; cbn [exclude_loop In].
  - split; [discriminate | intros (? & [] & _)].
  - destruct (startswith p (py "*")) eqn:Star.
    + destruct (endswith name (tl p)) eqn:E.
      * split; [|reflexivity]. intros _. exists p. rewrite Star. auto.
      * rewrite IH. split.
        -- intros (q & Hq & H). exists q. auto.
        -- intros (q & [-> | Hq] & H); [|exists q; auto].
           rewrite Star in H. congruence.
    + destruct (str_eqb p name || str_in p (split sep path)) eqn:E.
      * split; [|reflexivity]. intros _. exists p. rewrite Star.
        split; [now left|]. apply orb_true_iff in E.
        destruct E as [E | E]; [left; now apply str_eqb_eq |
                                right; now apply str_in_In].
      * rewrite IH. split.
        -- intros (q & Hq & H). exists q. auto.
        -- intros (q & [-> | Hq] & H); [|exists q; auto].
           rewrite Star in H. apply orb_false_iff in E. destruct E as [E1 E2].
           destruct H as [H | H].
           ++ apply str_eqb_neq in E1. contradiction.
           ++ apply str_in_In in H. congruence.
Qed.

Lemma startswith_star p :
  startswith p (py "*") = true <-> exists ending, p = "*"%char :: ending.
Proof.
  split.
  - intros H. apply startswith_inv in H. destruct H as [r ->]. now exists r.
  - intros [r ->]. reflexivity.
Qed.

(** On the bare name of an entry the test of the script is the reading of
    the patterns above. *)
Lemma should_exclude_name name :
  ~ In sep name -> (_should_exclude name = true <-> excluded_name name).
Proof.
  intros Hs. unfold _should_exclude, excluded_name.
  rewrite basename_plain, exclude_loop_true, split_no_sep by assumption.
  split; intros (p & Hp & H); exists p; (split; [exact Hp|]).
  - destruct (startswith p (py "*")) eqn:Star.
    + apply startswith_star in Star. destruct Star as [ending ->].
      simpl in H. apply endswith_inv in H. destruct H as [front ->].
      right. now exists ending, front.
    + left. destruct H as [H | [H | []]]; congruence.
  - destruct (startswith p (py "*")) eqn:Star.
    + apply startswith_star in Star. destruct Star as [ending ->]. simpl.
      destruct H as [<- | (e & front & E & ->)].
      * apply (endswith_app ["*"%char] ending).
      * injection E as <-. apply endswith_app.
    + destruct H as [H | (e & front & E & _)]; [now left|].
      subst p. discriminate Star.
Qed.

(** ** Loops *)

Lemma for_each_app {A : Type} (l1 l2 : list A) (f : A -> M state unit) s :
  for_each (l1 ++ l2) f s = (for_each l1 f ;; for_each l2 f) s.
Proof.
  revert s. induction l1 as [|x l1 IH]; intros s; [reflexivity|].
  simpl. unfold bind. destruct (f x s) as [[[]|e] s1]; [|reflexivity].
  rewrite IH. reflexivity.
Qed.

Lemma for_each_ext {A : Type} (l : list A) (f g : A -> M state unit) :
  (forall x s, In x l -> f x s = g x s) ->
  forall s, for_each l f s = for_each l g s.
Proof.
  induction l as [|x l IH]; intros H s; [reflexivity|].
  simpl. unfold bind. rewrite (H x s) by now left.
  destruct (g x s) as [[[]|e] s1]; [|reflexivity].
  apply IH. intros y s' Hy. apply H. now right.
Qed.

Lemma for_each_flat_map {A B : Type} (l : list A) (g : A -> list B)
  (f : B -> M state unit) s :
  for_each l (fun x => for_each (g x) f) s = for_each (flat_map g l) f s.
Proof.
  revert s. induction l as [|x l IH]; intros s; [reflexivity|].
  simpl. rewrite for_each_app. unfold bind.
  destruct (for_each (g x) f s) as [[[]|e] s1]; [apply IH | reflexivity].
Qed.

Lemma for_each_skip_map {A B : Type} (l : list A) (skip : A -> bool)
  (h : A -> B) (f : B -> M state unit) s :
  for_each l (fun x => if skip x then ret tt else f (h x)) s =
  for_each (map h (filter (fun x => negb (skip x)) l)) f s.
Proof.
  revert s. induction l as [|x l IH]; intros s; [reflexivity|].
  simpl. destruct (skip x); simpl; unfold bind; simpl.
  - apply IH.
  - destruct (f (h x) s) as [[[]|e] s1]; [apply IH | reflexivity].
Qed.

(** ** Directory trees *)

Lemma assoc_In {A : Type} (k : str) (l : list (str * A)) (v : A) :
  assoc k l = Some v -> In (k, v) l.
Proof.
  induction l as [|[k' v'] l IH]; simpl; [discriminate|].
  destruct (str_eqb k' k) eqn:E.
  - apply str_eqb_eq in E. intros H. injection H as ->. subst. now left.
  - intros H. right. now apply IH.
Qed.

Lemma assoc_map {A B : Type} (f : A -> B) (k : str) (l : list (str * A)) :
  assoc k (map (fun p => (fst p, f (snd p))) l) = option_map f (assoc k l).
Proof.
  induction l as [|[k' v'] l IH]; simpl; [reflexivity|].
  destruct (str_eqb k' k); [reflexivity | exact IH].
Qed.

Lemma dir_names_In name children :
  In name (dir_names children) -> exists child, In (name, child) children.
Proof.
  unfold dir_names. rewrite in_map_iff. intros ([n c] & <- & H).
  apply filter_In in H. exists c. apply H.
Qed.

Lemma nondir_names_In name children :
  In name (nondir_names children) -> exists child, In (name, child) children.
Proof.
  unfold nondir_names. rewrite in_map_iff. intros ([n c] & <- & H).
  apply filter_In in H. exists c. apply H.
Qed.

(** ** What a walk does, step by step *)

Lemma bind_modify {B : Type} (f : state -> state) (k : unit -> M state B) s :
  bind (modify f) k s = k tt (f s).
Proof. reflexivity. Qed.

Lemma bind_ret {A B : Type} (a : A) (k : A -> M state B) s :
  bind (ret a) k s = k a s.
Proof. reflexivity. Qed.

Lemma bind_bind {A B C : Type} (m : M state A) (k : A -> M state B)
  (h : B -> M state C) s :
  bind (bind m k) h s = bind m (fun a => bind (k a) h) s.
Proof. unfold bind. destruct (m s) as [[a|e] s1]; reflexivity. Qed.

Lemma bind_ext {A B : Type} (m : M state A) (k h : A -> M state B) s :
  (forall a s', k a s' = h a s') -> bind m k s = bind m h s.
Proof.
  intros H. unfold bind. destruct (m s) as [[a|e] s1]; [apply H | reflexivity].
Qed.

(** The loop body of [_add_to_zip] writes the files that are kept and leaves
    the directories that are kept. *)
Lemma add_dir_body_run zipf source arcname root dirs files s :
  add_dir_body zipf source arcname root dirs files s =
  (for_each (map (write_step source arcname root) (filter kept files))
            (run_step zipf) ;;
   ret (filter kept dirs)) s.
Proof.
  assert (H : forall s, for_each files
    (fun file =>
       if _should_exclude file then ret tt
       else match os_path_relpath (os_path_join root file) source with
            | Some rel => zip_write zipf (os_path_join root file)
                                    (os_path_join arcname rel)
            | None => raise ValueError
            end) s =
    for_each (map (write_step source arcname root) (filter kept files))
             (run_step zipf) s).
  { intros s0. unfold kept.
    rewrite <- (for_each_skip_map files _should_exclude
                  (write_step source arcname root) (run_step zipf)).
    apply for_each_ext. intros file s1 _.
    destruct (_should_exclude file); [reflexivity|].
    unfold write_step, run_step.
    destruct (os_path_relpath (os_path_join root file) source); reflexivity. }
  unfold add_dir_body, bind. rewrite H. reflexivity.
Qed.

Lemma bind_congr {A B : Type} (m m' : M state A) (k : A -> M state B) s :
  m s = m' s -> bind m k s = bind m' k s.
Proof. intros H. unfold bind. now rewrite H. Qed.

(** The walk of [_add_to_zip] runs the steps of its trace. *)
Lemma os_walk_trace zipf source arcname n : forall top s,
  os_walk (add_dir_body zipf source arcname) n top s =
  for_each (trace source arcname n top) (run_step zipf) s.
Proof.
  induction n as [|children IH] using node_ind'; intros top s;
    [reflexivity|].
  cbn [os_walk trace for_each run_step].
  rewrite !bind_modify.
  rewrite for_each_app.
  etransitivity; [apply bind_congr; apply add_dir_body_run|].
  rewrite bind_bind. apply bind_ext. intros [] s1.
  rewrite bind_ret, <- for_each_flat_map.
  apply for_each_ext. intros d s2 Hd.
  rewrite !assoc_map.
  destruct (assoc d children) as [child|] eqn:E; [|reflexivity].
  simpl. apply assoc_In in E.
  rewrite Forall_forall in IH. apply (IH (d, child) E).
Qed.

(** ** Running steps *)

Lemma run_steps zipf steps : forall s,
  for_each steps (run_step zipf) s =
  (finish (failure steps) tt, fold_left (step_effect zipf) (done_steps steps) s).
Proof.
  induction steps as [|st steps IH]; intros s; [reflexivity|].
  cbn [for_each done_steps failure]. unfold bind.
  destruct st as [top | file_path [arc_path|]]; cbn [step_ok run_step].
  - unfold modify. rewrite IH. reflexivity.
  - unfold zip_write. destruct (can_read file_path).
    + unfold modify. rewrite IH. reflexivity.
    + reflexivity.
  - reflexivity.
Qed.

Lemma done_steps_prefix steps :
  exists rest, steps = done_steps steps ++ rest.
Proof.
  induction steps as [|st steps [rest IH]]; [now exists []|].
  simpl. destruct (step_ok st).
  - exists rest. simpl. now f_equal.
  - now exists (st :: steps).
Qed.

Lemma done_steps_all steps : failure steps = None -> done_steps steps = steps.
Proof.
  induction steps as [|st steps IH]; [reflexivity|].
  simpl. destruct (step_ok st); [|discriminate].
  intros H. f_equal. now apply IH.
Qed.

Lemma assoc_update_same {A : Type} k (f : A -> A) l :
  assoc k (assoc_update k f l) = option_map f (assoc k l).
Proof.
  induction l as [|[k' v] l IH]; simpl; [reflexivity|].
  destruct (str_eqb k' k) eqn:E; simpl; rewrite E; [reflexivity | exact IH].
Qed.

Lemma assoc_update_other {A : Type} k k' (f : A -> A) l :
  k' <> k -> assoc k' (assoc_update k f l) = assoc k' l.
Proof.
  intros Hne. induction l as [|[k0 v] l IH]; simpl; [reflexivity|].
  destruct (str_eqb k0 k) eqn:E; simpl.
  - apply str_eqb_eq in E. subst k0.
    destruct (str_eqb k k') eqn:E'; [|reflexivity].
    apply str_eqb_eq in E'. congruence.
  - now rewrite IH.
Qed.

Lemma file_at_update_same k f s :
  file_at k (update_releases k f s) = option_map f (file_at k s).
Proof.
  unfold file_at, update_releases. destruct (releases s) as [out|] eqn:E.
  - simpl. apply assoc_update_same.
  - now rewrite E.
Qed.

Lemma file_at_update_other k k' f s :
  k' <> k -> file_at k' (update_releases k f s) = file_at k' s.
Proof.
  intros Hne. unfold file_at, update_releases.
  destruct (releases s) as [out|] eqn:E.
  - simpl. now apply assoc_update_other.
  - now rewrite E.
Qed.

Lemma effects_scanned zipf steps : forall s,
  scanned (fold_left (step_effect zipf) steps s) = scanned s ++ scans steps.
Proof.
  induction steps as [|st steps IH]; intros s; simpl.
  - now rewrite app_nil_r.
  - rewrite IH. destruct st as [top | fp [arc|]]; simpl.
    + now rewrite <- app_assoc.
    + unfold update_releases. now destruct (releases s).
    + reflexivity.
Qed.

Lemma effects_file_at zipf steps : forall s,
  file_at zipf (fold_left (step_effect zipf) steps s) =
  option_map (add_entries (writes steps)) (file_at zipf s).
Proof.
  induction steps as [|st steps IH]; intros s; simpl.
  - destruct (file_at zipf s) as [[l c e]|]; [|reflexivity].
    simpl. unfold add_entries. simpl. now rewrite app_nil_r.
  - rewrite IH. destruct st as [top | fp [arc|]]; simpl; try reflexivity.
    rewrite file_at_update_same.
    destruct (file_at zipf s) as [[l c e]|]; [|reflexivity].
    simpl. unfold add_entries. simpl. now rewrite <- app_assoc.
Qed.

Lemma effects_file_other zipf k steps : forall s,
  k <> zipf ->
  file_at k (fold_left (step_effect zipf) steps s) = file_at k s.
Proof.
  induction steps as [|st steps IH]; intros s Hne; [reflexivity|].
  simpl. rewrite IH by assumption.
  destruct st as [top | fp [arc|]]; simpl; try reflexivity.
  now apply file_at_update_other.
Qed.

Lemma writes_In steps file_path arc_path :
  In (file_path, arc_path) (writes steps) <->
  In (Write file_path (Some arc_path)) steps.
Proof.
  unfold writes. rewrite in_flat_map. split.
  - intros ([top | fp [arc|]] & Hin & H); simpl in H; try contradiction.
    destruct H as [H | []]. now injection H as -> ->.
  - intros H. exists (Write file_path (Some arc_path)). split; [exact H|].
    now left.
Qed.

Lemma scans_In steps top : In top (scans steps) <-> In (Scan top) steps.
Proof.
  unfold scans. rewrite in_flat_map. split.
  - intros ([t | fp arc] & Hin & H); simpl in H; try contradiction.
    destruct H as [-> | []]. exact Hin.
  - intros H. exists (Scan top). split; [exact H | now left].
Qed.

(** ** What a walk can reach *)

Lemma kept_allowed name : plain name -> kept name = true -> allowed name.
Proof.
  intros Hp Hk. split; [exact Hp|]. intros Hex.
  apply (should_exclude_name name (proj2 Hp)) in Hex.
  unfold kept in Hk. now rewrite Hex in Hk.
Qed.

Lemma trace_fine source arcname n :
  wf_node n ->
  forall top rel,
    segments top = segments source ++ rel -> Forall allowed rel ->
    Forall (step_fine source arcname) (trace source arcname n top).
Proof.
  induction n as [|children IH] using node_ind'; intros Hwf top rel Htop Hrel;
    [constructor|].
  inversion Hwf as [|? Hch]; subst.
  cbn [trace]. constructor; [now exists rel|].
  apply Forall_app. split.
  - apply Forall_forall. intros st Hst.
    apply in_map_iff in Hst. destruct Hst as (file & <- & Hfile).
    apply filter_In in Hfile. destruct Hfile as [Hin Hk].
    apply nondir_names_In in Hin. destruct Hin as [child Hin].
    destruct (Hch _ _ Hin) as [Hp _].
    pose proof (kept_allowed file Hp Hk) as Ha.
    assert (Hseg : segments (os_path_join top file) =
                   segments source ++ (rel ++ [file])).
    { rewrite segments_join by now apply plain_not_rooted.
      rewrite Htop, (segments_plain _ Hp), <- app_assoc. reflexivity. }
    destruct (relpath_below (os_path_join top file) source (rel ++ [file]))
      as (r & Er & Sr & Rr).
    + now apply join_plain_not_nil.
    + exact Hseg.
    + now destruct rel.
    + apply Forall_app. split.
      * eapply Forall_impl; [|exact Hrel]. now intros a [Ha' _].
      * constructor; [exact Hp | constructor].
    + unfold write_step. cbn [step_fine]. rewrite Er.
      exists (rel ++ [file]), (os_path_join arcname r).
      repeat split.
      * now destruct rel.
      * apply Forall_app. split; [exact Hrel | now constructor].
      * exact Hseg.
      * rewrite segments_join by exact Rr. now rewrite Sr.
  - apply Forall_flat_map. apply Forall_forall. intros d Hd.
    apply filter_In in Hd. destruct Hd as [Hin Hk].
    rewrite assoc_map.
    destruct (assoc d children) as [child|] eqn:E; [|constructor].
    simpl. apply assoc_In in E.
    destruct (Hch _ _ E) as [Hp Hw].
    rewrite Forall_forall in IH.
    apply (IH (d, child) E Hw (os_path_join top d) (rel ++ [d])).
    + rewrite segments_join by now apply plain_not_rooted.
      rewrite Htop, (segments_plain _ Hp), <- app_assoc. reflexivity.
    + apply Forall_app. split; [exact Hrel|].
      constructor; [now apply kept_allowed | constructor].
Qed.

(** [_add_to_zip] on a directory runs the trace of the walk from it. *)
Lemma add_to_zip_dir zipf source arcname children s :
  _add_to_zip zipf source (Dir children) (Some arcname) s =
  for_each (trace source arcname (Dir children) source) (run_step zipf) s.
Proof. unfold _add_to_zip. apply os_walk_trace. Qed.

(** C2. Take an included directory [source], added under [arcname], whose
    entries have proper names.  Whatever the call to [_add_to_zip] adds to
    the archive is a file reached from [source] through names none of which
    matches an exclusion pattern (no pattern is the name, no starred pattern
    is an ending of it), stored under [arcname] followed by those names; and
    every directory the walk lists is reached the same way, so that nothing
    inside a directory with an excluded name is listed or visited. *)
Theorem excluded_names_never_packaged
  (zipf source arcname : str) (children : list (str * node))
  (s s' : state) (o : outcome unit) (f : outfile) :
  wf_node (Dir children) ->
  file_at zipf s = Some f ->
  _add_to_zip zipf source (Dir children) (Some arcname) s = (o, s') ->
  exists (f' : outfile) (added : list (str * str)) (visited : list str),
    file_at zipf s' = Some f' /\
    entries f' = entries f ++ added /\
    scanned s' = scanned s ++ visited /\
    (forall file_path arc_path, In (file_path, arc_path) added ->
       exists rel, rel <> [] /\
         segments file_path = segments source ++ rel /\
         segments arc_path = segments arcname ++ rel /\
         forall name, In name rel -> ~ excluded_name name) /\
    (forall dir, In dir visited ->
       exists rel,
         segments dir = segments source ++ rel /\
         forall name, In name rel -> ~ excluded_name name).
Proof.
  intros Hwf Hf Hrun.
  rewrite add_to_zip_dir, run_steps in Hrun.
  remember (trace source arcname (Dir children) source) as steps eqn:Esteps.
  apply (f_equal snd) in Hrun. cbn [snd] in Hrun. subst s'.
  assert (Hfine : Forall (step_fine source arcname) (done_steps steps)).
  { pose proof (trace_fine source arcname (Dir children) Hwf source []) as H.
    rewrite app_nil_r in H. specialize (H eq_refl (Forall_nil _)).
    rewrite <- Esteps in H. destruct (done_steps_prefix steps) as [rest E].
    rewrite E in H. now apply Forall_app in H. }
  rewrite Forall_forall in Hfine.
  exists (add_entries (writes (done_steps steps)) f),
         (writes (done_steps steps)), (scans (done_steps steps)).
  split; [|split; [|split; [|split]]].
  - now rewrite effects_file_at, Hf.
  - reflexivity.
  - apply effects_scanned.
  - intros file_path arc_path Hin. apply writes_In in Hin.
    destruct (Hfine _ Hin) as (rel & arc & Hne & Hrel & Hfp & Harc & Hseg).
    injection Harc as <-. exists rel. repeat split; auto.
    intros name Hname. rewrite Forall_forall in Hrel.
    apply (proj2 (Hrel _ Hname)).
  - intros dir Hin. apply scans_In in Hin.
    destruct (Hfine _ Hin) as (rel & Hseg & Hrel).
    exists rel. split; [exact Hseg|].
    intros name Hname. rewrite Forall_forall in Hrel.
    apply (proj2 (Hrel _ Hname)).
Qed.

(** ** Building a package *)

Lemma bind_unit (m : M state unit) s : (m ;; ret tt) s = m s.
Proof. unfold bind. destruct (m s) as [[[]|e] s1]; reflexivity. Qed.

Lemma items_run zipf files s :
  for_each files (fun item =>
    let source := os_path_join project_root item in
    match stat item with
    | Some n => _add_to_zip zipf source n (Some item)
    | None => ret tt
    end) s =
  for_each (package_steps files) (run_step zipf) s.
Proof.
  unfold package_steps. rewrite <- for_each_flat_map.
  apply for_each_ext. intros item s1 _. unfold item_steps. cbv zeta.
  destruct (stat item) as [[|children]|]; [| |reflexivity].
  - unfold _add_to_zip.
    destruct (_should_exclude (os_path_join project_root item));
      [reflexivity|].
    cbn [negb for_each run_step]. now rewrite bind_unit.
  - apply add_to_zip_dir.
Qed.

Lemma assoc_remove_same {A : Type} k (l : list (str * A)) :
  assoc k (assoc_remove k l) = None.
Proof.
  induction l as [|[k' v] l IH]; simpl; [reflexivity|].
  destruct (str_eqb k' k) eqn:E; [exact IH|]. simpl. now rewrite E.
Qed.

Lemma assoc_remove_other {A : Type} k k' (l : list (str * A)) :
  k' <> k -> assoc k' (assoc_remove k l) = assoc k' l.
Proof.
  intros Hne. induction l as [|[k0 v] l IH]; simpl; [reflexivity|].
  destruct (str_eqb k0 k) eqn:E; simpl.
  - apply str_eqb_eq in E. subst k0.
    destruct (str_eqb k k') eqn:E'; [|exact IH].
    apply str_eqb_eq in E'. congruence.
  - now rewrite IH.
Qed.

Lemma assoc_remove_absent {A : Type} k (l : list (str * A)) :
  assoc k l = None -> assoc_remove k l = l.
Proof.
  induction l as [|[k' v] l IH]; simpl; [reflexivity|].
  destruct (str_eqb k' k); [discriminate|]. intros H. f_equal. now apply IH.
Qed.

Lemma assoc_app {A : Type} k (l1 l2 : list (str * A)) :
  assoc k (l1 ++ l2) =
  match assoc k l1 with Some v => Some v | None => assoc k l2 end.
Proof.
  induction l1 as [|[k' v] l1 IH]; simpl; [reflexivity|].
  destruct (str_eqb k' k); [reflexivity | exact IH].
Qed.

Lemma file_at_opened_same filename out s :
  file_at filename (opened filename out s) = Some (mkOutfile false false []).
Proof.
  unfold file_at, opened. simpl.
  rewrite assoc_app, assoc_remove_same. simpl. now rewrite str_eqb_refl.
Qed.

Lemma file_at_opened_other filename k out s :
  k <> filename -> releases s = Some out ->
  file_at k (opened filename out s) = file_at k s.
Proof.
  intros Hne Hout. unfold file_at, opened. simpl. rewrite Hout.
  rewrite assoc_app, assoc_remove_other by assumption.
  destruct (assoc k out); [reflexivity|]. simpl.
  destruct (str_eqb filename k) eqn:E; [|reflexivity].
  apply str_eqb_eq in E. congruence.
Qed.

Lemma slug_run s :
  slug s =
  match dict_get (py "name") (JStr (py "extension")) (manifest_data s) with
  | JStr n => (Ok (slugify n), s)
  | JOther _ => (Raise AttributeError, s)
  end.
Proof.
  unfold slug, bind, name, gets.
  destruct (dict_get _ _ _); reflexivity.
Qed.

(** A build whose manifest has no string for a name stops at the slug. *)
Lemma create_package_bad_name files suffix s :
  archive_name (manifest_data s) suffix = None ->
  _create_package files suffix s = (Raise AttributeError, s).
Proof.
  unfold archive_name, _create_package. intros H.
  unfold bind at 1. rewrite slug_run.
  destruct (dict_get _ _ _); [discriminate | reflexivity].
Qed.

(** A build that finds the output file locked prints and exits. *)
Lemma create_package_locked files suffix s filename f :
  archive_name (manifest_data s) suffix = Some filename ->
  file_at filename s = Some f -> locked f = true ->
  _create_package files suffix s =
  (Raise (SystemExit 1),
   fold_left (fun s line => add_stdout line s) (locked_messages filename) s).
Proof.
  unfold archive_name, _create_package, file_at. intros Hname Hf Hl.
  unfold bind at 1. rewrite slug_run.
  destruct (dict_get (py "name") _ _) as [n|]; [|discriminate].
  apply (f_equal (fun o => match o with Some x => x | None => filename end))
    in Hname. cbv beta iota in Hname.
  unfold bind at 1, version at 1, gets at 1. rewrite Hname.
  unfold bind at 1, gets at 1. rewrite Hf, Hl.
  reflexivity.
Qed.

(** A build with no output directory cannot create its archive. *)
Lemma create_package_no_dir files suffix s filename :
  archive_name (manifest_data s) suffix = Some filename ->
  releases s = None ->
  _create_package files suffix s = (Raise FileNotFoundError, s).
Proof.
  unfold archive_name, _create_package. intros Hname Hr.
  unfold bind at 1. rewrite slug_run.
  destruct (dict_get (py "name") _ _) as [n|]; [|discriminate].
  apply (f_equal (fun o => match o with Some x => x | None => filename end))
    in Hname. cbv beta iota in Hname.
  unfold bind at 1, version at 1, gets at 1. rewrite Hname.
  unfold bind at 1, gets at 1. rewrite Hr.
  unfold bind at 1, ret at 1. unfold bind at 1, zip_open. rewrite Hr.
  reflexivity.
Qed.

(** A build that gets to open its archive runs the steps of its items, closes
    the archive, and returns the path or raises what the first failing step
    raised. *)
Lemma create_package_built files suffix s filename out :
  archive_name (manifest_data s) suffix = Some filename ->
  releases s = Some out ->
  (forall f, assoc filename out = Some f -> locked f = false) ->
  _create_package files suffix s =
  (finish (failure (package_steps files)) (os_path_join output_dir filename),
   built filename out (package_steps files) s).
Proof.
  unfold archive_name, _create_package. intros Hname Hr Hl.
  unfold bind at 1. rewrite slug_run.
  destruct (dict_get (py "name") _ _) as [n|]; [|discriminate].
  apply (f_equal (fun o => match o with Some x => x | None => filename end))
    in Hname. cbv beta iota in Hname.
  unfold bind at 1, version at 1, gets at 1. rewrite Hname.
  unfold bind at 1, gets at 1. rewrite Hr.
  assert (Hopen : forall s1,
    releases s1 = Some (assoc_remove filename out) ->
    set_releases (Some out) s1 = s ->
    (zip_open filename ;;
     finally
       (for_each files (fun item =>
          let source := os_path_join project_root item in
          match stat item with
          | Some n => _add_to_zip filename source n (Some item)
          | None => ret tt
          end))
       (zip_close filename) ;;
     ret (os_path_join output_dir filename)) s1 =
    (finish (failure (package_steps files)) (os_path_join output_dir filename),
     built filename out (package_steps files) s)).
  { intros s1 Hr1 Hs1. unfold bind at 1, zip_open. rewrite Hr1.
    rewrite assoc_remove_same.
    assert (Es : set_releases
              (Some (assoc_remove filename out
                     ++ [(filename, mkOutfile false false [])])) s1 =
            opened filename out s).
    { unfold opened. rewrite <- Hs1. reflexivity. }
    rewrite Es. unfold bind, finally. rewrite items_run, run_steps.
    unfold zip_close, modify, built.
    destruct (failure (package_steps files)); reflexivity. }
  destruct (assoc filename out) as [f|] eqn:Ef.
  - rewrite (Hl f eq_refl). unfold bind at 1, modify at 1. rewrite Hr.
    apply Hopen; [reflexivity|].
    unfold set_releases. simpl. rewrite <- Hr. now destruct s.
  - unfold bind at 1, ret at 1. apply Hopen.
    + rewrite Hr. now rewrite assoc_remove_absent.
    + unfold set_releases. rewrite <- Hr. now destruct s.
Qed.

(** The ways a build can go. *)
Lemma create_package_cases files suffix s :
  (archive_name (manifest_data s) suffix = None /\
   _create_package files suffix s = (Raise AttributeError, s)) \/
  exists filename,
    archive_name (manifest_data s) suffix = Some filename /\
    ((releases s = None /\
      _create_package files suffix s = (Raise FileNotFoundError, s)) \/
     (exists f, file_at filename s = Some f /\ locked f = true /\
        _create_package files suffix s =
        (Raise (SystemExit 1),
         fold_left (fun s line => add_stdout line s)
                   (locked_messages filename) s)) \/
     (exists out, releases s = Some out /\
        (forall f, assoc filename out = Some f -> locked f = false) /\
        _create_package files suffix s =
        (finish (failure (package_steps files))
                (os_path_join output_dir filename),
         built filename out (package_steps files) s))).
Proof.
  destruct (archive_name (manifest_data s) suffix) as [filename|] eqn:Hname.
  - right. exists filename. split; [reflexivity|].
    destruct (releases s) as [out|] eqn:Hr.
    + destruct (assoc filename out) as [f|] eqn:Ef.
      * destruct (locked f) eqn:Hl.
        -- right. left. exists f. unfold file_at. rewrite Hr.
           repeat split; auto.
           apply create_package_locked with f; auto.
           unfold file_at. now rewrite Hr.
        -- right. right. exists out. repeat split.
           ++ intros f' Hf'. congruence.
           ++ apply create_package_built; auto. intros f' Hf'. congruence.
      * right. right. exists out. repeat split.
        -- intros f' Hf'. congruence.
        -- apply create_package_built; auto. intros f' Hf'. congruence.
    + left. split; [reflexivity|].
      now apply create_package_no_dir with filename.
  - left. split; [reflexivity|]. now apply create_package_bad_name.
Qed.


Lemma file_at_built_same filename out steps s :
  file_at filename (built filename out steps s) =
  Some (mkOutfile false true (writes (done_steps steps))).
Proof.
  unfold built.
  rewrite file_at_update_same, effects_file_at, file_at_opened_same.
  reflexivity.
Qed.

Lemma file_at_built_other filename k out steps s :
  k <> filename -> releases s = Some out ->
  file_at k (built filename out steps s) = file_at k s.
Proof.
  intros Hne Hr. unfold built.
  rewrite file_at_update_other, effects_file_other by assumption.
  now apply file_at_opened_other.
Qed.

Lemma stdout_messages lines : forall s,
  stdout (fold_left (fun s line => add_stdout line s) lines s) =
  stdout s ++ lines.
Proof.
  induction lines as [|l lines IH]; intros s; simpl.
  - now rewrite app_nil_r.
  - rewrite IH. simpl. now rewrite <- app_assoc.
Qed.

(** C6. When the output file of a build exists and is locked, the build
    prints the three lines of the error and raises [SystemExit(1)]; the
    output directory is as it was (no archive was opened or written, under
    this name or another), no directory was listed, and the manifest is
    untouched. *)
Theorem locked_output_aborts (files : list str) (suffix : str) (s : state)
  (filename : str) (f : outfile) :
  archive_name (manifest_data s) suffix = Some filename ->
  file_at filename s = Some f -> locked f = true ->
  exists s',
    _create_package files suffix s = (Raise (SystemExit 1), s') /\
    stdout s' = stdout s ++ locked_messages filename /\
    releases s' = releases s /\
    scanned s' = scanned s /\
    manifest_data s' = manifest_data s /\
    manifest_file s' = manifest_file s.
Proof.
  intros Hname Hf Hl.
  exists (fold_left (fun s line => add_stdout line s)
                    (locked_messages filename) s).
  split; [apply create_package_locked with f; assumption|].
  split; [apply stdout_messages | repeat split].
Qed.


(** ** What the items of a package contribute *)

Lemma writes_app a b : writes (a ++ b) = writes a ++ writes b.
Proof. unfold writes. apply flat_map_app. Qed.

Lemma writes_package files :
  writes (package_steps files) = flat_map item_entries files.
Proof.
  unfold package_steps. induction files as [|item files IH];
    [reflexivity|].
  simpl. now rewrite writes_app, IH.
Qed.

(** Listing an entry that is not there changes nothing. *)
Lemma package_steps_existing file_list :
  package_steps (_get_existing_files file_list) = package_steps file_list.
Proof.
  unfold package_steps, _get_existing_files.
  induction file_list as [|item l IH]; [reflexivity|].
  simpl. destruct (stat item) as [n|] eqn:E; simpl.
  - now rewrite IH.
  - rewrite IH. unfold item_steps. now rewrite E.
Qed.

Lemma package_steps_app a b :
  package_steps (a ++ b) = package_steps a ++ package_steps b.
Proof. unfold package_steps. apply flat_map_app. Qed.







(** ** The two packages of [build_all] *)

Lemma create_package_ok files suffix s path s' :
  _create_package files suffix s = (Ok path, s') ->
  exists filename out,
    archive_name (manifest_data s) suffix = Some filename /\
    releases s = Some out /\
    failure (package_steps files) = None /\
    path = os_path_join output_dir filename /\
    s' = built filename out (package_steps files) s.
Proof.
  intros Hrun.
  destruct (create_package_cases files suffix s)
    as [[_ H] | (filename & Hname & [[_ H] | [(f & _ & _ & H) | (out & Hr & _ & H)]])];
    rewrite H in Hrun; try discriminate Hrun.
  destruct (failure (package_steps files)) eqn:Hfail; [discriminate Hrun|].
  cbn [finish] in Hrun. injection Hrun as <- <-.
  now exists filename, out.
Qed.

Lemma effects_manifest_data zipf steps : forall s,
  manifest_data (fold_left (step_effect zipf) steps s) = manifest_data s.
Proof.
  induction steps as [|st steps IH]; intros s; [reflexivity|].
  simpl. rewrite IH. destruct st as [top | fp [arc|]]; try reflexivity.
  simpl. unfold update_releases. now destruct (releases s).
Qed.

Lemma effects_releases zipf steps : forall s out,
  releases s = Some out ->
  exists out', releases (fold_left (step_effect zipf) steps s) = Some out'.
Proof.
  induction steps as [|st steps IH]; intros s out Hr; [now exists out|].
  simpl. destruct st as [top | fp [arc|]]; simpl.
  - now apply IH with out.
  - unfold update_releases. rewrite Hr. eapply IH. reflexivity.
  - now apply IH with out.
Qed.

Lemma built_manifest_data filename out steps s :
  manifest_data (built filename out steps s) = manifest_data s.
Proof.
  unfold built, update_releases.
  destruct (releases (fold_left _ _ _)); simpl;
    now rewrite effects_manifest_data.
Qed.

Lemma built_releases filename out steps s :
  exists out', releases (built filename out steps s) = Some out'.
Proof.
  unfold built.
  destruct (effects_releases filename (done_steps steps)
              (opened filename out s) _ eq_refl) as [out1 E].
  unfold update_releases. rewrite E. simpl. eauto.
Qed.

(** The two archives of one version have different names. *)
Lemma archive_names_differ d store_name full_name :
  archive_name d (py "-store") = Some store_name ->
  archive_name d (py "") = Some full_name ->
  store_name <> full_name.
Proof.
  unfold archive_name. destruct (dict_get (py "name") _ d); [|discriminate].
  intros H1 H2 E. rewrite <- E, <- H1 in H2.
  apply (f_equal (fun o => match o with
                           | Some x => List.length x
                           | None => 0
                           end)) in H2.
  cbv beta iota in H2. rewrite !length_app in H2. simpl in H2. lia.
Qed.


Lemma failure_app a b :
  failure (a ++ b) = None -> failure a = None /\ failure b = None.
Proof.
  induction a as [|st a IH]; simpl; [auto|].
  destruct (step_ok st); [exact IH | discriminate].
Qed.

(** Creating the output directory adds no file to it. *)
Lemma file_at_makedirs k s :
  file_at k (match releases s with
             | None => set_releases (Some []) s
             | Some _ => s
             end) = file_at k s.
Proof. unfold file_at. destruct (releases s) eqn:E; simpl; now rewrite ?E. Qed.

(** A build of both packages that returns has closed both archives, each
    holding what its items contribute. *)
Lemma build_all_ok s s' r :
  build_all s = (Ok r, s') ->
  exists store_name full_name,
    archive_name (manifest_data s) (py "-store") = Some store_name /\
    archive_name (manifest_data s) (py "") = Some full_name /\
    r_store r = os_path_join output_dir store_name /\
    r_github r = os_path_join output_dir full_name /\
    file_at store_name s' =
      Some (mkOutfile false true (flat_map item_entries STORE_FILES)) /\
    file_at full_name s' =
      Some (mkOutfile false true
              (flat_map item_entries (STORE_FILES ++ DOCS_FILES))).
Proof.
  unfold build_all, makedirs_output. intros Hrun.
  rewrite bind_modify in Hrun.
  set (s1 := match releases s with
             | None => set_releases (Some []) s
             | Some _ => s
             end) in Hrun.
  assert (Hd1 : manifest_data s1 = manifest_data s)
    by (unfold s1; now destruct (releases s)).
  unfold bind at 1, name at 1, gets at 1 in Hrun.
  unfold bind at 1 in Hrun. rewrite slug_run in Hrun.
  destruct (dict_get (py "name") _ (manifest_data s1)) as [n|] eqn:Hn;
    [|discriminate Hrun].
  unfold bind at 1, version at 1, gets at 1 in Hrun.
  unfold bind at 1, description at 1, gets at 1 in Hrun.
  unfold bind at 1 in Hrun.
  destruct (build_store_package s1) as [[store|e] s2] eqn:Hstore;
    [|discriminate Hrun].
  unfold bind at 1 in Hrun.
  destruct (build_github_package s2) as [[github|e] s3] eqn:Hfull;
    [|discriminate Hrun].
  unfold ret in Hrun. injection Hrun as <- <-. cbn [r_store r_github].
  apply create_package_ok in Hstore.
  destruct Hstore as (store_name & out1 & Hsn & Hr1 & Hf1 & -> & ->).
  apply create_package_ok in Hfull.
  destruct Hfull as (full_name & out2 & Hfn & Hr2 & Hf2 & -> & ->).
  rewrite built_manifest_data in Hfn. rewrite Hd1 in Hsn, Hfn.
  pose proof (archive_names_differ _ _ _ Hsn Hfn) as Hne.
  exists store_name, full_name.
  split; [exact Hsn|]. split; [exact Hfn|].
  split; [reflexivity|]. split; [reflexivity|]. split.
  - rewrite file_at_built_other by assumption.
    rewrite file_at_built_same, (done_steps_all _ Hf1).
    now rewrite package_steps_existing, writes_package.
  - rewrite file_at_built_same, (done_steps_all _ Hf2).
    rewrite package_steps_app, !package_steps_existing, <- package_steps_app.
    now rewrite writes_package.
Qed.

(** A build of both packages returns when the manifest names the extension,
    neither output file is locked, and no file to add fails to open. *)
Lemma build_all_runs s store_name full_name :
  archive_name (manifest_data s) (py "-store") = Some store_name ->
  archive_name (manifest_data s) (py "") = Some full_name ->
  (forall f, file_at store_name s = Some f -> locked f = false) ->
  (forall f, file_at full_name s = Some f -> locked f = false) ->
  failure (package_steps (STORE_FILES ++ DOCS_FILES)) = None ->
  exists r s', build_all s = (Ok r, s').
Proof.
  intros Hsn Hfn Hls Hlf Hfail.
  pose proof (archive_names_differ _ _ _ Hsn Hfn) as Hne.
  rewrite package_steps_app in Hfail.
  destruct (failure_app _ _ Hfail) as [Hf1 _].
  rewrite <- package_steps_app in Hfail.
  unfold build_all, makedirs_output. rewrite bind_modify.
  pose proof (file_at_makedirs store_name s) as Hs1.
  pose proof (file_at_makedirs full_name s) as Hs2.
  set (s1 := match releases s with
             | None => set_releases (Some []) s
             | Some _ => s
             end) in *.
  assert (Hd1 : manifest_data s1 = manifest_data s)
    by (unfold s1; now destruct (releases s)).
  assert (Hr1 : exists out1, releases s1 = Some out1).
  { unfold s1. destruct (releases s) as [out|] eqn:E; [now exists out|].
    now exists []. }
  destruct Hr1 as [out1 Hr1].
  rewrite <- Hd1 in Hsn, Hfn.
  unfold bind at 1, name at 1, gets at 1.
  unfold bind at 1. rewrite slug_run.
  destruct (dict_get (py "name") _ (manifest_data s1)) as [n|] eqn:Hn.
  2:{ unfold archive_name in Hsn. rewrite Hn in Hsn. discriminate Hsn. }
  unfold bind at 1, version at 1, gets at 1.
  unfold bind at 1, description at 1, gets at 1.
  unfold bind at 1, build_store_package at 1.
  rewrite (create_package_built _ _ s1 store_name out1 Hsn Hr1).
  2:{ intros f Hf. apply Hls. rewrite <- Hs1. unfold file_at.
      now rewrite Hr1. }
  rewrite package_steps_existing, Hf1. cbn [finish].
  set (s2 := built store_name out1 (package_steps STORE_FILES) s1).
  destruct (built_releases store_name out1 (package_steps STORE_FILES) s1)
    as [out2 Hr2].
  fold s2 in Hr2.
  unfold bind at 1, build_github_package at 1.
  rewrite (create_package_built _ _ s2 full_name out2).
  - rewrite package_steps_app, !package_steps_existing, <- package_steps_app.
    rewrite Hfail. cbn [finish]. unfold bind, ret. eauto.
  - unfold s2. now rewrite built_manifest_data.
  - exact Hr2.
  - intros f Hf. apply Hlf. rewrite <- Hs2.
    rewrite <- (file_at_built_other store_name full_name out1
                  (package_steps STORE_FILES) s1) by auto.
    fold s2. unfold file_at. now rewrite Hr2.
Qed.


(** ** A version written by a bump *)

Lemma scan_uint_acc u : forall acc : positive,
  scan_digits (Z.pos acc) false (py (NilEmpty.string_of_uint u)) =
  Some (Z.pos (Pos.of_uint_acc u acc), []).
Proof.
  unfold py.
  induction u as [|u IH|u IH|u IH|u IH|u IH|u IH|u IH|u IH|u IH|u IH];
    intros acc; [reflexivity|..];
    cbn [NilEmpty.string_of_uint list_ascii_of_string scan_digits
         Pos.of_uint_acc];
    (match goal with
     | |- context [digit_val ?c] =>
         let v := eval vm_compute in (digit_val c) in
         change (digit_val c) with v
     end);
    cbv beta iota; (etransitivity; [|apply IH]); f_equal; lia.
Qed.

Lemma scan_uint u :
  scan_digits 0 false (py (NilEmpty.string_of_uint u)) =
  Some (Z.of_N (Pos.of_uint u), []).
Proof.
  unfold py.
  induction u as [|u IH|u IH|u IH|u IH|u IH|u IH|u IH|u IH|u IH|u IH];
    [reflexivity|..];
    cbn [NilEmpty.string_of_uint list_ascii_of_string scan_digits Pos.of_uint];
    (match goal with
     | |- context [digit_val ?c] =>
         let v := eval vm_compute in (digit_val c) in
         change (digit_val c) with v
     end);
    cbv beta iota;
    [exact IH | apply (scan_uint_acc u) ..].
Qed.

Lemma int_of_digits c rest v :
  is_digit c = true -> scan_digits 0 false (c :: rest) = Some (v, []) ->
  int (c :: rest) = Some v /\ int ("-"%char :: c :: rest) = Some (- v)%Z.
Proof.
  intros Hc Hs.
  assert (Hd : exists n, digit_val c = Some n).
  { unfold digit_val. unfold is_digit in Hc. rewrite Hc. eauto. }
  destruct Hd as [n Hd].
  assert (Hsp : is_space c = false /\ Ascii.eqb c "+" = false /\
                Ascii.eqb c "-" = false).
  { destruct c as [[] [] [] [] [] [] [] []]; try discriminate Hc;
      repeat split; reflexivity. }
  destruct Hsp as (Hsp & Hplus & Hminus).
  split.
  - unfold int. cbn [skip_spaces]. rewrite Hsp, Hplus, Hminus, Hd, Hs.
    reflexivity.
  - unfold int. cbn [skip_spaces].
    change (is_space "-") with false. cbv iota.
    change (Ascii.eqb "-" "+") with false.
    change (Ascii.eqb "-" "-") with true. cbv iota.
    rewrite Hd, Hs. reflexivity.
Qed.

Lemma uint_head p :
  exists c rest, py (NilEmpty.string_of_uint (Pos.to_uint p)) = c :: rest /\
                 is_digit c = true.
Proof.
  pose proof (Unsigned.to_uint_nonnil p) as H.
  destruct (Pos.to_uint p); [contradiction|..];
    eexists; eexists; (split; [reflexivity|reflexivity]).
Qed.

Lemma string_of_uint_pos p :
  NilZero.string_of_uint (Pos.to_uint p) =
  NilEmpty.string_of_uint (Pos.to_uint p).
Proof.
  pose proof (Unsigned.to_uint_nonnil p) as H.
  now destruct (Pos.to_uint p).
Qed.

(** What [str] writes for an integer, [int] reads back. *)
Lemma int_str_of_int z : int (str_of_int z) = Some z.
Proof.
  destruct z as [|p|p]; [reflexivity|..]; unfold str_of_int;
    cbn [Z.to_int NilZero.string_of_int]; rewrite string_of_uint_pos;
    destruct (uint_head p) as (c & rest & E & Hc);
    pose proof (scan_uint (Pos.to_uint p)) as Hs;
    rewrite Unsigned.of_to in Hs.
  - rewrite E in *. now apply int_of_digits.
  - change (py (String "-" (NilEmpty.string_of_uint (Pos.to_uint p))))
      with ("-"%char :: py (NilEmpty.string_of_uint (Pos.to_uint p))).
    rewrite E in *.
    destruct (int_of_digits c rest _ Hc Hs) as [_ H]. exact H.
Qed.

Lemma read_format_version a b c :
  read_version (format_version (a, b, c)) = Some (a, b, c).
Proof.
  unfold read_version, component. rewrite split_format_version. simpl.
  now rewrite !int_str_of_int.
Qed.

(** A bump that returns has read three numbers in a version that is a
    string. *)
Lemma bump_version_inv s bump_type old new s' :
  bump_version bump_type s = (Ok (old, new), s') ->
  dict_get (py "version") (JStr (py "0.0.0")) (manifest_data s) = JStr old /\
  exists major minor patch,
    read_version old = Some (major, minor, patch) /\
    new = format_version (bumped bump_type major minor patch) /\
    s' = bumped_state new s.
Proof.
  intros Hrun. pose proof (bump_version_ok _ _ _ _ _ Hrun) as Hs'.
  revert Hrun. unfold bump_version, bind, version, gets.
  destruct (dict_get _ _ _) as [old0 | v] eqn:Hv; [|discriminate].
  rewrite !nth_pad3 by lia. unfold int_of.
  destruct (int (nth 0 _ _)) as [major|] eqn:H0; [|discriminate].
  destruct (int (nth 1 _ _)) as [minor|] eqn:H1; [|discriminate].
  destruct (int (nth 2 _ _)) as [patch|] eqn:H2; [|discriminate].
  simpl. unfold ret. intros H. injection H as E1 E2 _. subst old0 new.
  split; [reflexivity|].
  exists major, minor, patch.
  split; [unfold read_version, component; now rewrite H0, H1, H2|].
  split; [reflexivity|]. exact Hs'.
Qed.

Lemma version_of_bumped_state new s :
  dict_get (py "version") (JStr (py "0.0.0"))
           (manifest_data (bumped_state new s)) = JStr new.
Proof.
  unfold bumped_state, dict_get. simpl. now rewrite assoc_dict_set_same.
Qed.

Lemma read_version_components version major minor patch :
  read_version version = Some (major, minor, patch) ->
  int (component 0 version) = Some major /\
  int (component 1 version) = Some minor /\
  int (component 2 version) = Some patch.
Proof.
  unfold read_version.
  destruct (int (component 0 version)); [|discriminate].
  destruct (int (component 1 version)); [|discriminate].
  destruct (int (component 2 version)); [|discriminate].
  intros H. injection H as <- <- <-. auto.
Qed.

(** A version written by a bump is read back as the three numbers it was
    written from, so that the next bump, of whatever kind, returns: it
    starts from the version the first one left. *)
Theorem bump_after_bump (s s1 : state) (first second old new : str) :
  bump_version first s = (Ok (old, new), s1) ->
  exists major minor patch a b c : Z,
    read_version old = Some (major, minor, patch) /\
    bumped first major minor patch = (a, b, c) /\
    read_version new = Some (a, b, c) /\
    let newer := format_version (bumped second a b c) in
    bump_version second s1 = (Ok (new, newer), bumped_state newer s1).
Proof.
  intros Hrun.
  destruct (bump_version_inv _ _ _ _ _ Hrun)
    as (_ & major & minor & patch & Hold & Hnew & ->).
  destruct (bumped first major minor patch) as [[a b] c] eqn:Hb.
  exists major, minor, patch, a, b, c.
  assert (Hread : read_version new = Some (a, b, c))
    by (subst new; apply read_format_version).
  split; [exact Hold|]. split; [exact Hb|]. split; [exact Hread|].
  cbv zeta.
  destruct (read_version_components _ _ _ _ Hread) as (H0 & H1 & H2).
  apply bump_version_run; try assumption.
  apply version_of_bumped_state.
Qed.

(** A bump moves the version forward: read as three numbers, the version it
    writes is above the one it found, in the order by major, then minor,
    then patch. *)
Theorem bump_moves_forward (s s' : state) (bump_type old new : str) :
  bump_version bump_type s = (Ok (old, new), s') ->
  exists v w,
    read_version old = Some v /\ read_version new = Some w /\
    version_lt v w.
Proof.
  intros Hrun.
  destruct (bump_version_inv _ _ _ _ _ Hrun)
    as (_ & major & minor & patch & Hold & Hnew & _).
  exists (major, minor, patch), (bumped bump_type major minor patch).
  split; [exact Hold|]. split.
  - subst new. destruct (bumped bump_type major minor patch) as [[a b] c].
    apply read_format_version.
  - unfold bumped, version_lt.
    destruct (str_eqb bump_type (py "major")); [lia|].
    destruct (str_eqb bump_type (py "minor")); lia.
Qed.

Lemma assoc_none_keys {A : Type} key (l : list (str * A)) :
  assoc key l = None -> ~ In key (map fst l).
Proof.
  induction l as [|[k v] l IH]; simpl; [tauto|].
  destruct (str_eqb k key) eqn:E; [discriminate|].
  apply str_eqb_neq in E. intros H [H1 | H1]; [congruence | now apply IH].
Qed.

(** A manifest with no ['version'] key is bumped from ['0.0.0']: the call
    returns that as the old version, and the new one (['1.0.0'], ['0.1.0']
    or ['0.0.1']) is added to the manifest as its last key. *)
Theorem bump_without_version (s : state) (bump_type : str) :
  assoc (py "version") (manifest_data s) = None ->
  exists new,
    bump_version bump_type s = (Ok (py "0.0.0", new), bumped_state new s) /\
    (bump_type = py "major" -> new = py "1.0.0") /\
    (bump_type = py "minor" -> new = py "0.1.0") /\
    (bump_type <> py "major" -> bump_type <> py "minor" ->
     new = py "0.0.1") /\
    manifest_file (bumped_state new s) =
      manifest_data s ++ [(py "version", JStr new)].
Proof.
  intros Hnone.
  exists (format_version (bumped bump_type 0 0 0)).
  split; [|split; [|split; [|split]]].
  - apply bump_version_run; try reflexivity.
    unfold dict_get. now rewrite Hnone.
  - intros ->. reflexivity.
  - intros ->. reflexivity.
  - intros Hmajor Hminor. apply str_eqb_neq in Hmajor, Hminor.
    unfold bumped. now rewrite Hmajor, Hminor.
  - unfold bumped_state. simpl. apply dict_set_new.
    now apply assoc_none_keys.
Qed.

(** Setting the version writes it through: the getter returns the value
    set, whatever was there, the file holds what the object holds, and every
    other key reads as before, through [get] and through the accessors. *)
Theorem version_written_through (s : state) (v : json) :
  exists s',
    set_version v s = (Ok tt, s') /\
    version s' = (Ok v, s') /\
    get (py "version") (JStr (py "")) s' = (Ok v, s') /\
    manifest_file s' = manifest_data s' /\
    (forall key default,
       key <> py "version" ->
       get key default s' =
         (Ok (dict_get key default (manifest_data s)), s')) /\
    fst (name s') = fst (name s) /\
    fst (description s') = fst (description s) /\
    fst (slug s') = fst (slug s).
Proof.
  exists (set_manifest_file (dict_set (py "version") v (manifest_data s))
            (set_manifest_data (dict_set (py "version") v (manifest_data s))
                               s)).
  assert (Hother : forall key default,
            key <> py "version" ->
            dict_get key default
                     (dict_set (py "version") v (manifest_data s)) =
            dict_get key default (manifest_data s)).
  { intros key default Hkey. unfold dict_get.
    now rewrite assoc_dict_set_other. }
  split; [reflexivity|].
  split; [|split; [|split; [reflexivity|split; [|split; [|split]]]]].
  - unfold version, gets, dict_get. simpl. now rewrite assoc_dict_set_same.
  - unfold get, gets, dict_get. simpl. now rewrite assoc_dict_set_same.
  - intros key default Hkey. unfold get, gets. simpl.
    now rewrite Hother.
  - unfold name, gets. simpl. now rewrite Hother.
  - unfold description, gets. simpl. now rewrite Hother.
  - rewrite !slug_run. simpl. rewrite Hother by discriminate.
    now destruct (dict_get _ _ _).
Qed.

(** ** More on the slug *)

Lemma filter_re_sub_run b (s : str) :
  filter is_az09 (re_sub_run b s) = filter is_az09 s.
Proof.
  revert b. induction s as [|c s IH]; intros b; [reflexivity|].
  simpl. destruct (is_az09 c) eqn:E.
  - simpl. now rewrite E, IH.
  - destruct b; [apply IH|]. cbn [filter].
    now rewrite hyphen_not_az09, IH.
Qed.

Lemma filter_lstrip_hyphen (s : str) :
  filter is_az09 (lstrip hyphen s) = filter is_az09 s.
Proof.
  induction s as [|c s IH]; [reflexivity|].
  simpl. destruct (Ascii.eqb c hyphen) eqn:E; [|reflexivity].
  apply Ascii.eqb_eq in E. subst c. cbn [filter].
  now rewrite hyphen_not_az09.
Qed.

Lemma filter_strip_hyphen (s : str) :
  filter is_az09 (strip hyphen s) = filter is_az09 s.
Proof.
  unfold strip, rstrip. rewrite filter_lstrip_hyphen, filter_rev.
  rewrite filter_lstrip_hyphen, filter_rev. apply rev_involutive.
Qed.

(** The slug keeps the letters [a-z] and the digits of the lowered name, all
    of them and in their order, and nothing else but hyphens; it is empty
    exactly when the lowered name has none, as with a name of punctuation
    only. *)
Theorem slug_keeps_letters_and_digits (name : str) :
  filter is_az09 (slugify name) = filter is_az09 (lower name) /\
  (forall c, In c (slugify name) -> is_az09 c = false -> c = hyphen) /\
  (slugify name = [] <->
   forall c, In c (lower name) -> is_az09 c = false).
Proof.
  assert (Hkeep : filter is_az09 (slugify name) = filter is_az09 (lower name)).
  { unfold slugify, re_sub_non_az09.
    now rewrite filter_strip_hyphen, filter_re_sub_run. }
  destruct (slugify_form name) as (Hchars & _ & Hhead & _).
  split; [exact Hkeep|]. split.
  - intros c Hc Hno. rewrite Forall_forall in Hchars.
    destruct (Hchars c Hc) as [H | H]; [congruence | exact H].
  - split.
    + intros E c Hc. rewrite E in Hkeep. simpl in Hkeep.
      destruct (is_az09 c) eqn:Ec; [|reflexivity].
      assert (Hin : In c (filter is_az09 (lower name)))
        by (apply filter_In; now split).
      rewrite <- Hkeep in Hin. contradiction.
    + intros Hnone.
      assert (Hnil : filter is_az09 (lower name) = []).
      { destruct (filter is_az09 (lower name)) as [|c l] eqn:E;
          [reflexivity|].
        assert (Hin : In c (filter is_az09 (lower name)))
          by (rewrite E; now left).
        apply filter_In in Hin. destruct Hin as [Hin Hc].
        now rewrite (Hnone c Hin) in Hc. }
      rewrite Hnil in Hkeep.
      destruct (slugify name) as [|c l]; [reflexivity|].
      inversion Hchars as [|? ? [Hc | Hc] _]; subst.
      * simpl in Hkeep. rewrite Hc in Hkeep. discriminate Hkeep.
      * now contradiction Hhead.
Qed.

(** ** The exclusion test on a path *)

Lemma last_In {A : Type} (l : list A) (d : A) : l <> [] -> In (last l d) l.
Proof.
  induction l as [|a l IH]; [congruence|]. intros _.
  destruct l as [|b l]; [now left|]. right. apply IH. discriminate.
Qed.

Lemma basename_In_split path : In (os_path_basename path) (split sep path).
Proof. unfold os_path_basename. apply last_In, split_not_nil. Qed.

(** The test on a path, said without the loop: a starred pattern must end
    the last component, and any other pattern must be one of the components,
    the last one or one above it.  So a path that goes through a directory
    named by such a pattern is excluded, wherever that directory is. *)
Theorem should_exclude_spec (path : str) :
  _should_exclude path = true <->
  (exists ending front,
     In ("*"%char :: ending) EXCLUDE_PATTERNS /\
     os_path_basename path = front ++ ending) \/
  (exists pattern,
     In pattern EXCLUDE_PATTERNS /\
     (forall ending, pattern <> "*"%char :: ending) /\
     In pattern (split sep path)).
Proof.
  unfold _should_exclude. rewrite exclude_loop_true. split.
  - intros (pattern & Hin & H).
    destruct (startswith pattern (py "*")) eqn:Star.
    + left. apply startswith_star in Star. destruct Star as [ending ->].
      simpl in H. apply endswith_inv in H. destruct H as [front E].
      now exists ending, front.
    + right. exists pattern. split; [exact Hin|]. split.
      * intros ending ->.
        assert (Star' : startswith ("*"%char :: ending) (py "*") = true)
          by (apply startswith_star; now exists ending).
        congruence.
      * destruct H as [-> | H]; [apply basename_In_split | exact H].
  - intros [(ending & front & Hin & E) | (pattern & Hin & Hstar & H)].
    + exists ("*"%char :: ending). split; [exact Hin|].
      assert (Star : startswith ("*"%char :: ending) (py "*") = true)
        by (apply startswith_star; now exists ending).
      rewrite Star. simpl. rewrite E. apply endswith_app.
    + exists pattern. split; [exact Hin|].
      destruct (startswith pattern (py "*")) eqn:Star.
      * apply startswith_star in Star. destruct Star as [ending ->].
        now contradiction (Hstar ending).
      * now right.
Qed.

(** ** What a walk does not miss *)

Lemma not_excluded_kept name :
  plain name -> ~ excluded_name name -> kept name = true.
Proof.
  intros Hp Hex. unfold kept.
  destruct (_should_exclude name) eqn:E; [|reflexivity].
  apply (should_exclude_name name (proj2 Hp)) in E. contradiction.
Qed.

Lemma In_nondir_names name children :
  In (name, File) children -> In name (nondir_names children).
Proof.
  intros H. unfold nondir_names.
  apply (in_map fst _ (name, File)). apply filter_In. now split.
Qed.

Lemma In_dir_names name c children :
  In (name, Dir c) children -> In name (dir_names children).
Proof.
  intros H. unfold dir_names.
  apply (in_map fst _ (name, Dir c)). apply filter_In. now split.
Qed.

(** The walk writes every file found by following names it keeps. *)
Lemma trace_complete source arcname : forall rel n top rel0,
  wf_node n -> node_at n rel = Some File ->
  (forall name, In name rel -> ~ excluded_name name) ->
  segments top = segments source ++ rel0 -> Forall plain rel0 ->
  rel <> [] ->
  exists arc_path,
    In (Write (fold_left os_path_join rel top) (Some arc_path))
       (trace source arcname n top) /\
    segments arc_path = segments arcname ++ rel0 ++ rel.
Proof.
  induction rel as [|name rest IH]; intros n top rel0 Hwf Hat Hex Htop Hrel0 Hne;
    [congruence|].
  destruct n as [|children]; [discriminate Hat|].
  cbn [node_at] in Hat.
  destruct (assoc name children) as [child|] eqn:Ea; [|discriminate Hat].
  pose proof (assoc_In _ _ _ Ea) as Hin.
  inversion Hwf as [|? Hch]; subst.
  destruct (Hch _ _ Hin) as [Hp Hw].
  assert (Hk : kept name = true).
  { apply not_excluded_kept; [exact Hp|]. apply Hex. now left. }
  assert (Hseg : segments (os_path_join top name) =
                 segments source ++ (rel0 ++ [name])).
  { rewrite segments_join by now apply plain_not_rooted.
    rewrite Htop, (segments_plain _ Hp), <- app_assoc. reflexivity. }
  assert (Hplain : Forall plain (rel0 ++ [name])).
  { apply Forall_app. split; [exact Hrel0 | now constructor]. }
  destruct rest as [|name2 rest].
  - cbn [node_at] in Hat. injection Hat as ->.
    destruct (relpath_below (os_path_join top name) source (rel0 ++ [name]))
      as (r & Er & Sr & Rr).
    + now apply join_plain_not_nil.
    + exact Hseg.
    + now destruct rel0.
    + exact Hplain.
    + exists (os_path_join arcname r). split.
      * cbn [trace fold_left]. right. apply in_or_app. left.
        assert (E : Write (os_path_join top name)
                          (Some (os_path_join arcname r)) =
                    write_step source arcname top name)
          by (unfold write_step; now rewrite Er).
        rewrite E. apply in_map. apply filter_In.
        split; [now apply In_nondir_names | exact Hk].
      * rewrite segments_join by exact Rr. now rewrite Sr.
  - destruct child as [|c]; [discriminate Hat|].
    destruct (IH (Dir c) (os_path_join top name) (rel0 ++ [name]))
      as (arc_path & Hstep & Harc); try assumption.
    + intros x Hx. apply Hex. now right.
    + discriminate.
    + exists arc_path. split.
      * cbn [trace]. right. apply in_or_app. right.
        apply in_flat_map. exists name. split.
        -- apply filter_In. split; [now apply In_dir_names with c | exact Hk].
        -- rewrite assoc_map, Ea. exact Hstep.
      * rewrite Harc, <- app_assoc. reflexivity.
Qed.

Lemma segments_fold_join rest : forall acc,
  Forall plain rest ->
  segments (fold_left os_path_join rest acc) = segments acc ++ rest.
Proof.
  induction rest as [|name rest IH]; intros acc Hp.
  - now rewrite app_nil_r.
  - inversion Hp as [|? ? Hname Hrest]; subst. cbn [fold_left].
    rewrite IH by exact Hrest.
    rewrite segments_join by now apply plain_not_rooted.
    rewrite (segments_plain _ Hname), <- app_assoc. reflexivity.
Qed.

(** The names that lead to something in a tree are names of its entries. *)
Lemma node_at_plain : forall rel n m,
  wf_node n -> node_at n rel = Some m -> Forall plain rel.
Proof.
  induction rel as [|name rest IH]; intros n m Hwf Hat; [constructor|].
  destruct n as [|children]; [discriminate Hat|].
  cbn [node_at] in Hat.
  destruct (assoc name children) as [child|] eqn:Ea; [|discriminate Hat].
  apply assoc_In in Ea. inversion Hwf as [|? Hch]; subst.
  destruct (Hch _ _ Ea) as [Hp Hw].
  constructor; [exact Hp | now apply (IH child m)].
Qed.

(** When [_add_to_zip] returns from a directory whose entries have proper
    names, every file that sits in a directory the walk has listed, and
    whose name matches no exclusion pattern, is in the archive, under the
    archive name of the directory followed by the names that lead to the
    file.  (Which directories the walk lists is the business of [os.walk]:
    it lists none below a name that is excluded.) *)
Theorem kept_files_are_packaged
  (zipf source arcname : str) (children : list (str * node))
  (s s' : state) (f : outfile) (visited : list str)
  (dirs : list str) (file : str) :
  wf_node (Dir children) ->
  file_at zipf s = Some f ->
  _add_to_zip zipf source (Dir children) (Some arcname) s = (Ok tt, s') ->
  scanned s' = scanned s ++ visited ->
  In (fold_left os_path_join dirs source) visited ->
  node_at (Dir children) (dirs ++ [file]) = Some File ->
  ~ excluded_name file ->
  exists (f' : outfile) (arc_path : str),
    file_at zipf s' = Some f' /\
    In (fold_left os_path_join (dirs ++ [file]) source, arc_path)
       (entries f') /\
    segments arc_path = segments arcname ++ dirs ++ [file].
Proof.
  intros Hwf Hf Hrun Hscanned Hlisted Hat Hfile.
  rewrite add_to_zip_dir, run_steps in Hrun.
  remember (trace source arcname (Dir children) source) as steps eqn:Esteps.
  destruct (failure steps) eqn:Hfail; [discriminate Hrun|].
  apply (f_equal snd) in Hrun. cbn [snd] in Hrun. subst s'.
  rewrite (done_steps_all _ Hfail) in *.
  rewrite effects_scanned in Hscanned. apply app_inv_head in Hscanned.
  subst visited. apply scans_In in Hlisted.
  pose proof (node_at_plain _ _ _ Hwf Hat) as Hplain.
  apply Forall_app in Hplain. destruct Hplain as [Hdirs _].
  assert (Hkept : forall name, In name (dirs ++ [file]) ->
                               ~ excluded_name name).
  { pose proof (trace_fine source arcname (Dir children) Hwf source []) as H.
    rewrite app_nil_r in H. specialize (H eq_refl (Forall_nil _)).
    rewrite <- Esteps in H. rewrite Forall_forall in H.
    destruct (H _ Hlisted) as (rel & Hseg & Hrel).
    rewrite (segments_fold_join dirs source Hdirs) in Hseg.
    apply app_inv_head in Hseg. subst rel.
    intros name Hin. apply in_app_or in Hin.
    destruct Hin as [Hin | [<- | []]]; [|exact Hfile].
    rewrite Forall_forall in Hrel. apply (proj2 (Hrel _ Hin)). }
  destruct (trace_complete source arcname (dirs ++ [file]) (Dir children)
              source [])
    as (arc_path & Hstep & Harc); try assumption.
  - now rewrite app_nil_r.
  - constructor.
  - now destruct dirs.
  - exists (add_entries (writes steps) f), arc_path.
    split; [now rewrite effects_file_at, Hf|]. split.
    + simpl. apply in_or_app. right. apply writes_In.
      rewrite Esteps. exact Hstep.
    + exact Harc.
Qed.

(** ** What a build leaves alone, and what it reports *)

Lemma effects_manifest_file zipf steps : forall s,
  manifest_file (fold_left (step_effect zipf) steps s) = manifest_file s.
Proof.
  induction steps as [|st steps IH]; intros s; [reflexivity|].
  simpl. rewrite IH. destruct st as [top | fp [arc|]]; try reflexivity.
  simpl. unfold update_releases. now destruct (releases s).
Qed.

Lemma effects_stdout zipf steps : forall s,
  stdout (fold_left (step_effect zipf) steps s) = stdout s.
Proof.
  induction steps as [|st steps IH]; intros s; [reflexivity|].
  simpl. rewrite IH. destruct st as [top | fp [arc|]]; try reflexivity.
  simpl. unfold update_releases. now destruct (releases s).
Qed.

Lemma built_manifest_file filename out steps s :
  manifest_file (built filename out steps s) = manifest_file s.
Proof.
  unfold built, update_releases.
  destruct (releases (fold_left _ _ _)); simpl;
    now rewrite effects_manifest_file.
Qed.

Lemma built_stdout filename out steps s :
  stdout (built filename out steps s) = stdout s.
Proof.
  unfold built, update_releases.
  destruct (releases (fold_left _ _ _)); simpl;
    now rewrite effects_stdout.
Qed.

(** A build of one package leaves the manifest, in the object and on disk,
    and every file of the output directory but its own archive. *)
Lemma create_package_frame files suffix s o s' :
  _create_package files suffix s = (o, s') ->
  manifest_data s' = manifest_data s /\
  manifest_file s' = manifest_file s /\
  forall k, archive_name (manifest_data s) suffix <> Some k ->
            file_at k s' = file_at k s.
Proof.
  intros Hrun.
  destruct (create_package_cases files suffix s)
    as [[_ H] | (filename & Hname & [[_ H] | [(f & _ & _ & H) | (out & Hr & _ & H)]])];
    rewrite H in Hrun; injection Hrun as _ <-.
  - auto.
  - auto.
  - repeat split.
  - split; [apply built_manifest_data|].
    split; [apply built_manifest_file|].
    intros k Hk. apply file_at_built_other; [congruence | exact Hr].
Qed.

Lemma with_output_dir_releases s :
  exists out, releases (with_output_dir s) = Some out.
Proof.
  unfold with_output_dir. destruct (releases s) as [out|] eqn:E;
    [now exists out | now exists []].
Qed.

Lemma with_output_dir_file_at k s :
  file_at k (with_output_dir s) = file_at k s.
Proof. apply file_at_makedirs. Qed.

Lemma with_output_dir_manifest s :
  manifest_data (with_output_dir s) = manifest_data s /\
  manifest_file (with_output_dir s) = manifest_file s /\
  stdout (with_output_dir s) = stdout s.
Proof. unfold with_output_dir. now destruct (releases s). Qed.

(** [build_all], call by call. *)
Lemma build_all_run s :
  build_all s =
  match dict_get (py "name") (JStr (py "extension")) (manifest_data s) with
  | JOther _ => (Raise AttributeError, with_output_dir s)
  | JStr n =>
      match build_store_package (with_output_dir s) with
      | (Raise e, s2) => (Raise e, s2)
      | (Ok store, s2) =>
          match build_github_package s2 with
          | (Raise e, s3) => (Raise e, s3)
          | (Ok github, s3) =>
              (Ok (mkSummary
                     (JStr n) (slugify n)
                     (dict_get (py "version") (JStr (py "0.0.0"))
                               (manifest_data s))
                     (dict_get (py "description") (JStr (py ""))
                               (manifest_data s))
                     store github output_dir), s3)
          end
      end
  end.
Proof.
  destruct (with_output_dir_manifest s) as (Hd & _ & _).
  unfold build_all, makedirs_output. rewrite bind_modify.
  fold (with_output_dir s).
  unfold bind at 1, name at 1, gets at 1.
  unfold bind at 1. rewrite slug_run. rewrite Hd.
  destruct (dict_get (py "name") _ (manifest_data s)) as [n|]; [|reflexivity].
  unfold bind at 1, version at 1, gets at 1.
  unfold bind at 1, description at 1, gets at 1. rewrite Hd.
  unfold bind at 1.
  destruct (build_store_package (with_output_dir s)) as [[store|e] s2];
    [|reflexivity].
  unfold bind at 1.
  destruct (build_github_package s2) as [[github|e] s3]; reflexivity.
Qed.

Lemma build_all_frame s s' (o : outcome summary) :
  build_all s = (o, s') ->
  manifest_data s' = manifest_data s /\
  manifest_file s' = manifest_file s /\
  forall k,
    archive_name (manifest_data s) (py "-store") <> Some k ->
    archive_name (manifest_data s) (py "") <> Some k ->
    file_at k s' = file_at k s.
Proof.
  rewrite build_all_run.
  destruct (with_output_dir_manifest s) as (Hd & Hf & _).
  destruct (dict_get (py "name") _ (manifest_data s)) as [n|].
  2:{ intros H. injection H as _ <-. rewrite Hd, Hf.
      repeat split. intros k _ _. apply with_output_dir_file_at. }
  destruct (build_store_package (with_output_dir s)) as [o1 s2] eqn:Hstore.
  apply create_package_frame in Hstore. destruct Hstore as (Hd2 & Hf2 & Hk2).
  rewrite Hd in Hd2, Hk2. rewrite Hf in Hf2.
  assert (Hstop : (manifest_data s2 = manifest_data s /\
                   manifest_file s2 = manifest_file s /\
                   forall k,
                     archive_name (manifest_data s) (py "-store") <> Some k ->
                     archive_name (manifest_data s) (py "") <> Some k ->
                     file_at k s2 = file_at k s)).
  { repeat split; auto. intros k Hs _.
    rewrite Hk2 by exact Hs. apply with_output_dir_file_at. }
  destruct o1 as [store|e]; [|intros H; injection H as _ <-; exact Hstop].
  destruct (build_github_package s2) as [o2 s3] eqn:Hfull.
  apply create_package_frame in Hfull. destruct Hfull as (Hd3 & Hf3 & Hk3).
  rewrite Hd2 in Hd3, Hk3. rewrite Hf2 in Hf3.
  intros H.
  assert (E : s' = s3) by (destruct o2; now injection H).
  subst s'. split; [exact Hd3|]. split; [exact Hf3|].
  intros k Hs Hg. rewrite Hk3 by exact Hg.
  now apply (proj2 (proj2 Hstop)).
Qed.

(** Whatever way it ends, [build_all] leaves the manifest as it is, in the
    object and on disk, and leaves every file of the output directory whose
    name is neither of the two names it computes for its archives.  When it
    returns it has printed nothing. *)
Theorem build_leaves_the_rest (s s' : state) (o : outcome summary) :
  build_all s = (o, s') ->
  manifest_data s' = manifest_data s /\
  manifest_file s' = manifest_file s /\
  (forall k,
     archive_name (manifest_data s) (py "-store") <> Some k ->
     archive_name (manifest_data s) (py "") <> Some k ->
     file_at k s' = file_at k s) /\
  (forall r, o = Ok r -> stdout s' = stdout s).
Proof.
  intros Hrun.
  destruct (build_all_frame _ _ _ Hrun) as (Hd & Hf & Hk).
  split; [exact Hd|]. split; [exact Hf|]. split; [exact Hk|].
  intros r ->. rewrite build_all_run in Hrun.
  destruct (with_output_dir_manifest s) as (_ & _ & Hout).
  destruct (dict_get (py "name") _ (manifest_data s)) as [n|];
    [|discriminate Hrun].
  destruct (build_store_package (with_output_dir s)) as [[store|e] s2]
    eqn:Hstore; [|discriminate Hrun].
  destruct (build_github_package s2) as [[github|e] s3] eqn:Hfull;
    [|discriminate Hrun].
  injection Hrun as _ <-.
  apply create_package_ok in Hstore.
  destruct Hstore as (store_name & out1 & _ & _ & _ & _ & ->).
  apply create_package_ok in Hfull.
  destruct Hfull as (full_name & out2 & _ & _ & _ & _ & ->).
  now rewrite !built_stdout.
Qed.

(** The summary of a build that returns, field by field. *)
Lemma build_all_summary s s' (r : summary) :
  build_all s = (Ok r, s') ->
  exists n store_name full_name,
    dict_get (py "name") (JStr (py "extension")) (manifest_data s) = JStr n /\
    archive_name (manifest_data s) (py "-store") = Some store_name /\
    archive_name (manifest_data s) (py "") = Some full_name /\
    r = mkSummary (JStr n) (slugify n)
          (dict_get (py "version") (JStr (py "0.0.0")) (manifest_data s))
          (dict_get (py "description") (JStr (py "")) (manifest_data s))
          (os_path_join output_dir store_name)
          (os_path_join output_dir full_name) output_dir.
Proof.
  intros Hrun.
  destruct (build_all_ok s s' r Hrun)
    as (store_name & full_name & Hsn & Hfn & Hrs & Hrg & _ & _).
  rewrite build_all_run in Hrun.
  destruct (dict_get (py "name") _ (manifest_data s)) as [n|] eqn:Hn;
    [|discriminate Hrun].
  destruct (build_store_package (with_output_dir s)) as [[store|e] s2];
    [|discriminate Hrun].
  destruct (build_github_package s2) as [[github|e] s3];
    [|discriminate Hrun].
  injection Hrun as <- _. cbn [r_store r_github] in Hrs, Hrg. subst.
  now exists n, store_name, full_name.
Qed.

(** In a build that returns, no file to add failed to open. *)
Lemma build_all_no_failure s s' (r : summary) :
  build_all s = (Ok r, s') ->
  failure (package_steps (STORE_FILES ++ DOCS_FILES)) = None.
Proof.
  rewrite build_all_run.
  destruct (dict_get (py "name") _ (manifest_data s)) as [n|];
    [|discriminate].
  destruct (build_store_package (with_output_dir s)) as [[store|e] s2];
    [|discriminate].
  destruct (build_github_package s2) as [[github|e] s3] eqn:Hfull;
    [|discriminate].
  intros _. apply create_package_ok in Hfull.
  destruct Hfull as (filename & out & _ & _ & Hfail & _ & _).
  now rewrite package_steps_app, !package_steps_existing,
    <- package_steps_app in Hfail.
Qed.

(** What [build_all] returns is read from the manifest: the name, the
    version and the description, or ['extension'], ['0.0.0'] and the empty
    string where the manifest has none; the slug of the name; the output
    directory under the project root; and the paths of the two archives in
    it, named by the slug and the version.  A manifest with neither name
    nor version gives [extension-v0.0.0-store.zip] and
    [extension-v0.0.0.zip]. *)
Theorem build_reports_the_manifest (s s' : state) (r : summary) :
  build_all s = (Ok r, s') ->
  exists n : str,
    r_name r = JStr n /\
    dict_get (py "name") (JStr (py "extension")) (manifest_data s) = JStr n /\
    r_slug r = slugify n /\
    r_version r =
      dict_get (py "version") (JStr (py "0.0.0")) (manifest_data s) /\
    r_description r =
      dict_get (py "description") (JStr (py "")) (manifest_data s) /\
    r_output_dir r = os_path_join project_root (py "releases") /\
    r_store r =
      os_path_join (r_output_dir r)
        (r_slug r ++ py "-v" ++ render_json (r_version r) ++ py "-store.zip") /\
    r_github r =
      os_path_join (r_output_dir r)
        (r_slug r ++ py "-v" ++ render_json (r_version r) ++ py ".zip") /\
    (assoc (py "name") (manifest_data s) = None ->
     assoc (py "version") (manifest_data s) = None ->
     r_store r = os_path_join (r_output_dir r)
                              (py "extension-v0.0.0-store.zip") /\
     r_github r = os_path_join (r_output_dir r) (py "extension-v0.0.0.zip")).
Proof.
  intros Hrun.
  destruct (build_all_ok s s' r Hrun)
    as (store_name & full_name & Hsn & Hfn & Hrs & Hrg & _ & _).
  rewrite build_all_run in Hrun.
  destruct (dict_get (py "name") _ (manifest_data s)) as [n|] eqn:Hn;
    [|discriminate Hrun].
  destruct (build_store_package (with_output_dir s)) as [[store|e] s2];
    [|discriminate Hrun].
  destruct (build_github_package s2) as [[github|e] s3];
    [|discriminate Hrun].
  injection Hrun as <- _. cbn [r_name r_slug r_version r_description
                               r_output_dir r_store r_github] in *.
  unfold archive_name in Hsn, Hfn. rewrite Hn in Hsn, Hfn.
  injection Hsn as <-. injection Hfn as <-.
  exists n. split; [reflexivity|]. split; [reflexivity|].
  split; [reflexivity|]. split; [reflexivity|]. split; [reflexivity|].
  split; [reflexivity|]. split; [exact Hrs|]. split; [exact Hrg|].
  intros Hname Hversion.
  unfold dict_get in Hn. rewrite Hname in Hn. injection Hn as <-.
  unfold dict_get in Hrs, Hrg.
  cbv [py list_ascii_of_string] in Hversion. rewrite Hversion in Hrs, Hrg.
  split; [exact Hrs | exact Hrg].
Qed.

(** A full archive that cannot be replaced stops [build_all] after the
    store package: the exit is [SystemExit(1)] with the three lines of the
    error, the store archive has been built and stays, and the old full
    archive is as it was. *)
Theorem locked_full_archive_keeps_store
  (s : state) (store_name full_name : str) (f : outfile) :
  archive_name (manifest_data s) (py "-store") = Some store_name ->
  archive_name (manifest_data s) (py "") = Some full_name ->
  (forall g, file_at store_name s = Some g -> locked g = false) ->
  file_at full_name s = Some f -> locked f = true ->
  failure (package_steps STORE_FILES) = None ->
  exists s',
    build_all s = (Raise (SystemExit 1), s') /\
    file_at store_name s' =
      Some (mkOutfile false true (flat_map item_entries STORE_FILES)) /\
    file_at full_name s' = Some f /\
    stdout s' = stdout s ++ locked_messages full_name.
Proof.
  intros Hsn Hfn Hls Hf Hlf Hfail.
  pose proof (archive_names_differ _ _ _ Hsn Hfn) as Hne.
  destruct (with_output_dir_manifest s) as (Hd & _ & Hout).
  destruct (with_output_dir_releases s) as [out1 Hr1].
  rewrite build_all_run.
  destruct (dict_get (py "name") _ (manifest_data s)) as [n|] eqn:Hn.
  2:{ unfold archive_name in Hsn. rewrite Hn in Hsn. discriminate Hsn. }
  unfold build_store_package.
  rewrite (create_package_built _ _ (with_output_dir s) store_name out1).
  2:{ now rewrite Hd. }
  2:{ exact Hr1. }
  2:{ intros g Hg. apply Hls. rewrite <- with_output_dir_file_at.
      unfold file_at. now rewrite Hr1. }
  rewrite package_steps_existing, Hfail. cbn [finish].
  set (s2 := built store_name out1 (package_steps STORE_FILES)
                   (with_output_dir s)).
  assert (Hf2 : file_at full_name s2 = Some f).
  { unfold s2. rewrite file_at_built_other by auto.
    now rewrite with_output_dir_file_at. }
  unfold build_github_package.
  rewrite (create_package_locked _ _ s2 full_name f); try assumption.
  2:{ unfold s2. now rewrite built_manifest_data, Hd. }
  eexists. split; [reflexivity|]. split; [|split].
  - change (file_at store_name s2 =
            Some (mkOutfile false true (flat_map item_entries STORE_FILES))).
    unfold s2. rewrite file_at_built_same, (done_steps_all _ Hfail).
    now rewrite writes_package.
  - exact Hf2.
  - rewrite stdout_messages. unfold s2. now rewrite built_stdout, Hout.
Qed.

(** The version a bump has written is the one the next build packages: the
    summary reports it and both archives carry it in their names, while the
    archives of the version before stay in the output directory.  The bump
    is not undone when the build fails: the manifest on disk has the new
    version whatever way the build ends. *)
Theorem bump_then_build
  (s s1 s2 : state) (bump_type old new : str) (o : outcome summary) :
  bump_version bump_type s = (Ok (old, new), s1) ->
  build_all s1 = (o, s2) ->
  manifest_file s2 = dict_set (py "version") (JStr new) (manifest_data s) /\
  dict_get (py "version") (JStr (py "0.0.0")) (manifest_file s2) = JStr new /\
  forall r, o = Ok r ->
    exists n store_name full_name,
      dict_get (py "name") (JStr (py "extension")) (manifest_data s)
        = JStr n /\
      store_name = slugify n ++ py "-v" ++ new ++ py "-store.zip" /\
      full_name = slugify n ++ py "-v" ++ new ++ py ".zip" /\
      r_version r = JStr new /\
      r_store r = os_path_join output_dir store_name /\
      r_github r = os_path_join output_dir full_name /\
      file_at store_name s2 =
        Some (mkOutfile false true (flat_map item_entries STORE_FILES)) /\
      file_at full_name s2 =
        Some (mkOutfile false true
                (flat_map item_entries (STORE_FILES ++ DOCS_FILES))) /\
      forall k, k <> store_name -> k <> full_name ->
                file_at k s2 = file_at k s.
Proof.
  intros Hbump Hbuild.
  apply bump_version_ok in Hbump. subst s1.
  destruct (build_all_frame _ _ _ Hbuild) as (Hd & Hf & Hk).
  assert (Hfile : manifest_file s2 =
                  dict_set (py "version") (JStr new) (manifest_data s))
    by (rewrite Hf; reflexivity).
  split; [exact Hfile|]. split.
  { rewrite Hfile. unfold dict_get. now rewrite assoc_dict_set_same. }
  intros r ->.
  destruct (build_all_summary _ _ _ Hbuild)
    as (n & store_name & full_name & Hn & Hsn & Hfn & Hr).
  destruct (build_all_ok _ _ _ Hbuild)
    as (sn & fn & Hsn' & Hfn' & _ & _ & Hfs & Hff).
  assert (sn = store_name) by congruence.
  assert (fn = full_name) by congruence. subst sn fn.
  assert (Hname : dict_get (py "name") (JStr (py "extension"))
                           (manifest_data s) = JStr n).
  { rewrite <- Hn. unfold bumped_state, dict_get. simpl.
    now rewrite assoc_dict_set_other by discriminate. }
  assert (Hver : dict_get (py "version") (JStr (py "0.0.0"))
                   (manifest_data (bumped_state new s)) = JStr new)
    by apply version_of_bumped_state.
  unfold archive_name in Hsn, Hfn. rewrite Hn, Hver in Hsn, Hfn.
  cbn [render_json] in Hsn, Hfn.
  exists n, store_name, full_name.
  split; [exact Hname|].
  split; [now injection Hsn as <-|]. split; [now injection Hfn as <-|].
  split; [rewrite Hr; cbn [r_version]; exact Hver|].
  split; [now rewrite Hr|]. split; [now rewrite Hr|].
  split; [exact Hfs|]. split; [exact Hff|].
  intros k Hks Hkf. rewrite Hk; [reflexivity| |].
  - unfold archive_name. rewrite Hn, Hver. cbn [render_json].
    intros E. apply Hks. congruence.
  - unfold archive_name. rewrite Hn, Hver. cbn [render_json].
    intros E. apply Hkf. congruence.
Qed.

(** A build that returned can be run again: it returns the same summary and
    leaves every file of the output directory as the first run left it, the
    two archives being written anew with the same entries, not added to. *)
Theorem build_again (s s1 : state) (r : summary) :
  build_all s = (Ok r, s1) ->
  exists s2,
    build_all s1 = (Ok r, s2) /\
    (forall k, file_at k s2 = file_at k s1) /\
    manifest_data s2 = manifest_data s1 /\
    manifest_file s2 = manifest_file s1.
Proof.
  intros Hrun.
  destruct (build_all_frame _ _ _ Hrun) as (Hd & _ & _).
  destruct (build_all_summary _ _ _ Hrun)
    as (n & store_name & full_name & Hn & Hsn & Hfn & Hr).
  destruct (build_all_ok _ _ _ Hrun)
    as (sn & fn & Hsn' & Hfn' & _ & _ & Hfs & Hff).
  assert (sn = store_name) by congruence.
  assert (fn = full_name) by congruence. subst sn fn.
  pose proof (build_all_no_failure _ _ _ Hrun) as Hfail.
  destruct (build_all_runs s1 store_name full_name)
    as (r' & s2 & Hrun'); try (rewrite Hd; assumption); try assumption.
  { intros g Hg. rewrite Hfs in Hg. now injection Hg as <-. }
  { intros g Hg. rewrite Hff in Hg. now injection Hg as <-. }
  exists s2.
  destruct (build_all_frame _ _ _ Hrun') as (Hd' & Hf' & Hk').
  destruct (build_all_summary _ _ _ Hrun')
    as (n' & sn & fn & Hn' & Hsn2 & Hfn2 & Hr').
  rewrite Hd in Hn', Hsn2, Hfn2, Hr', Hk'.
  assert (n' = n) by congruence.
  assert (sn = store_name) by congruence.
  assert (fn = full_name) by congruence. subst n' sn fn.
  split; [rewrite Hrun'; now rewrite Hr, Hr'|].
  split; [|split; assumption].
  destruct (build_all_ok _ _ _ Hrun')
    as (sn & fn & Hsn3 & Hfn3 & _ & _ & Hfs' & Hff').
  rewrite Hd in Hsn3, Hfn3.
  assert (sn = store_name) by congruence.
  assert (fn = full_name) by congruence. subst sn fn.
  intros k.
  destruct (str_eqb k store_name) eqn:Es.
  { apply str_eqb_eq in Es. subst k. now rewrite Hfs, Hfs'. }
  destruct (str_eqb k full_name) eqn:Ef.
  { apply str_eqb_eq in Ef. subst k. now rewrite Hff, Hff'. }
  apply str_eqb_neq in Es, Ef. apply Hk'; congruence.
Qed.

(** ** Sizes as the summary shows them *)

Lemma round_half_even_close a b :
  (0 < b)%Z -> (2 * Z.abs (a - b * round_half_even a b) <= b)%Z.
Proof.
  intros Hb. unfold round_half_even.
  pose proof (Z.div_mod a b ltac:(lia)) as Hdm.
  pose proof (Z.mod_pos_bound a b Hb) as Hr.
  destruct ((b <? 2 * (a mod b))%Z || _) eqn:E.
  - apply orb_true_iff in E. destruct E as [E | E].
    + apply Z.ltb_lt in E. nia.
    + apply andb_true_iff in E. destruct E as [E _].
      apply Z.eqb_eq in E. nia.
  - apply orb_false_iff in E. destruct E as [E _].
    apply Z.ltb_ge in E. nia.
Qed.

Lemma round_half_even_mono a a' b :
  (0 < b)%Z -> (a <= a')%Z ->
  (round_half_even a b <= round_half_even a' b)%Z.
Proof.
  intros Hb Hle.
  destruct (Z.eq_dec (a / b) (a' / b)) as [Eq | Ne].
  - unfold round_half_even. rewrite <- Eq.
    assert (Hr : (a mod b <= a' mod b)%Z).
    { rewrite !Z.mod_eq by lia. rewrite <- Eq. nia. }
    pose proof (Z.mod_pos_bound a b Hb). pose proof (Z.mod_pos_bound a' b Hb).
    destruct ((b <? 2 * (a mod b))%Z || _) eqn:E;
      destruct ((b <? 2 * (a' mod b))%Z || _) eqn:E'; try lia.
    exfalso. apply orb_false_iff in E'. destruct E' as [E1 E2].
    apply Z.ltb_ge in E1.
    apply orb_true_iff in E. destruct E as [E | E].
    + apply Z.ltb_lt in E. lia.
    + apply andb_true_iff in E. destruct E as [E3 E4].
      apply Z.eqb_eq in E3. rewrite E4, andb_true_r in E2.
      apply Z.eqb_neq in E2. lia.
  - assert (Hq : (a / b < a' / b)%Z).
    { pose proof (Z.div_le_mono a a' b Hb Hle). lia. }
    unfold round_half_even.
    destruct ((b <? 2 * (a mod b))%Z || _);
      destruct ((b <? 2 * (a' mod b))%Z || _); lia.
Qed.

Lemma round_half_even_exact q b :
  (0 < b)%Z -> round_half_even (q * b) b = q.
Proof.
  intros Hb. unfold round_half_even.
  rewrite Z.div_mul, Z.mod_mul by lia.
  replace (b <? 2 * 0)%Z with false by (symmetry; apply Z.ltb_ge; lia).
  replace (2 * 0 =? b)%Z with false by (symmetry; apply Z.eqb_neq; lia).
  reflexivity.
Qed.

(** Below [2 ** 53] the division by a power of two is exact. *)
Lemma truediv_pow2_exact n k :
  (0 < n < 2 ^ 53)%Z -> (0 <= k)%Z ->
  truediv_pow2 n k = Some (mkFloat n k).
Proof.
  intros [Hpos Hlt] Hk. unfold truediv_pow2, round53.
  assert (Hbits : (Z.log2 n + 1 <=? 53)%Z = true).
  { apply Z.leb_le. apply Z.log2_lt_pow2 in Hlt; lia. }
  rewrite Hbits.
  assert (Hfit : (n <? 2 ^ (1024 + k))%Z = true).
  { apply Z.ltb_lt. eapply Z.lt_le_trans; [exact Hlt|].
    apply Z.pow_le_mono_r; lia. }
  now rewrite Hfit.
Qed.

(** From one kibibyte up to [2 ** 53] bytes, [format_size] shows the size in
    KB below [1024 * 1024] bytes and in MB from there on, with one decimal:
    the number shown is at least 1.0, is within half a tenth of the size
    divided by 1024 (or by [1024 * 1024]), and in KB goes up to 1024.0. *)
Theorem format_size_one_decimal (n : Z) :
  (1024 <= n < 2 ^ 53)%Z ->
  exists t : Z,
    (10 <= t)%Z /\
    if (n <? 1024 * 1024)%Z then
      format_size n = Some (one_decimal t ++ py " KB") /\
      (2 * Z.abs (10 * n - 1024 * t) <= 1024)%Z /\ (t <= 10240)%Z
    else
      format_size n = Some (one_decimal t ++ py " MB") /\
      (2 * Z.abs (10 * n - 1024 * 1024 * t) <= 1024 * 1024)%Z.
Proof.
  intros [Hlo Hhi]. unfold format_size.
  replace (n <? 1024)%Z with false by (symmetry; apply Z.ltb_ge; lia).
  destruct (n <? 1024 * 1024)%Z eqn:E.
  - apply Z.ltb_lt in E.
    rewrite truediv_pow2_exact by lia.
    exists (round_half_even (10 * n) (2 ^ 10)). split; [|split; [|split]].
    + change 10%Z with (round_half_even (10 * 2 ^ 10) (2 ^ 10)) at 1.
      apply round_half_even_mono; lia.
    + reflexivity.
    + apply (round_half_even_close (10 * n) (2 ^ 10)). lia.
    + change 10240%Z with (round_half_even (10240 * 2 ^ 10) (2 ^ 10)).
      apply round_half_even_mono; lia.
  - apply Z.ltb_ge in E.
    rewrite truediv_pow2_exact by lia.
    exists (round_half_even (10 * n) (2 ^ 20)). split; [|split].
    + change 10%Z with (round_half_even (10 * 2 ^ 20) (2 ^ 20)) at 1.
      apply round_half_even_mono; lia.
    + reflexivity.
    + apply (round_half_even_close (10 * n) (2 ^ 20)). lia.
Qed.

(** The last 51 sizes below [1024 * 1024] bytes are shown as 1024.0 KB, not
    in MB: the unit is chosen before the number is rounded. *)
Theorem format_size_rounds_to_1024_kb (n : Z) :
  (1048525 <= n < 1024 * 1024)%Z ->
  format_size n = Some (py "1024.0 KB").
Proof.
  intros [Hlo Hhi]. unfold format_size.
  replace (n <? 1024)%Z with false by (symmetry; apply Z.ltb_ge; lia).
  replace (n <? 1024 * 1024)%Z with true by (symmetry; apply Z.ltb_lt; lia).
  rewrite truediv_pow2_exact by lia.
  unfold format_1f. cbn [numerator scale].
  assert (Ht : round_half_even (10 * n) (2 ^ 10) = 10240%Z).
  { apply Z.le_antisymm.
    - change 10240%Z with (round_half_even (10240 * 2 ^ 10) (2 ^ 10)).
      apply round_half_even_mono; lia.
    - change 10240%Z with (round_half_even (10 * 1048525) (2 ^ 10)) at 1.
      apply round_half_even_mono; lia. }
  rewrite Ht. reflexivity.
Qed.

End Properties.

(* ================================================================== *)
(** * The properties on the sample projects *)
(* ================================================================== *)

Example slug_samples :
  slugify (py "YouTube Auto Liker") = py "youtube-auto-liker" /\
  slugify (py "  My__Ext (v2)!  ") = py "my-ext-v2" /\
  slugify (py "---") = py "" /\
  slugify (py "youtube-auto-liker") = py "youtube-auto-liker".
Proof. repeat split; reflexivity. Qed.

Example int_samples :
  int (py "12") = Some 12%Z /\ int (py " +7 ") = Some 7%Z /\
  int (py "-3") = Some (-3)%Z /\ int (py "1_0") = Some 10%Z /\
  int (py "007") = Some 7%Z /\ int (py "") = None /\
  int (py "1__0") = None /\ int (py "_1") = None /\ int (py "1_") = None /\
  int (py "+ 1") = None /\ int (py "x") = None /\ int (py "1 2") = None /\
  int (py "1.5") = None.
Proof. repeat split; reflexivity. Qed.

Example split_samples :
  split "." (py "1.2.3") = [py "1"; py "2"; py "3"] /\
  split "." (py "") = [py ""] /\
  split "." (py "1..2.") = [py "1"; py ""; py "2"; py ""].
Proof. repeat split; reflexivity. Qed.

Example path_samples :
  os_path_join demo_root (py "src") = py "/home/dev/liker/src" /\
  os_path_join (py "/home/dev/") (py "src") = py "/home/dev/src" /\
  os_path_join (py "a") (py "/b") = py "/b" /\
  os_path_basename (py "/home/dev/liker/a.zip") = py "a.zip" /\
  os_path_relpath (py "/p/src/lib/util.js") (py "/p/src")
    = Some (py "lib/util.js") /\
  os_path_relpath (py "/p/docs/a") (py "/p/src") = Some (py "../docs/a").
Proof. repeat split; reflexivity. Qed.

Example should_exclude_samples :
  _should_exclude (py "node_modules") = true /\
  _should_exclude (py "old.zip") = true /\
  _should_exclude (py ".zip") = true /\
  _should_exclude (py "src/node_modules/x.js") = true /\
  _should_exclude (py "content.js") = false /\
  _should_exclude (py "zip") = false /\
  _should_exclude (py "Node_Modules") = false.
Proof. repeat split; reflexivity. Qed.

(** The bumps the specification gives as examples, and two more. *)
Example bump_samples :
  fst (bump_version (py "patch") (loaded (py "1.2") None))
    = Ok (py "1.2", py "1.2.1") /\
  fst (bump_version (py "major") (loaded (py "1.2.3") None))
    = Ok (py "1.2.3", py "2.0.0") /\
  fst (bump_version (py "minor") (loaded (py "1.2.3") None))
    = Ok (py "1.2.3", py "1.3.0") /\
  fst (bump_version (py "patch") (loaded (py "1.2.3") None))
    = Ok (py "1.2.3", py "1.2.4") /\
  fst (bump_version (py "patch") (loaded (py "1.2.3.4") None))
    = Ok (py "1.2.3.4", py "1.2.4") /\
  fst (bump_version (py "patch") (loaded (py "1") None))
    = Ok (py "1", py "1.0.1").
Proof. repeat split; reflexivity. Qed.

(** C1, on the version 1.2 bumped by a patch. *)
Lemma bump_version_rule_witness :
  bump_version (py "patch") (loaded (py "1.2") None) =
  (Ok (py "1.2", py "1.2.1"),
   bumped_state (py "1.2.1") (loaded (py "1.2") None)).
Proof.
  destruct (bump_version_rule (loaded (py "1.2") None) (py "patch")
              (py "1.2") eq_refl)
    as [_ [(i & _ & _ & Hraise) | (major & minor & patch & a & b & c & H0 & H1
                                   & H2 & _ & _ & Hpatch & _ & Hrun & _)]].
  - vm_compute in Hraise. discriminate Hraise.
  - specialize (Hpatch eq_refl).
    vm_compute in H0, H1, H2.
    injection H0 as <-. injection H1 as <-. injection H2 as <-.
    injection Hpatch as -> -> ->. exact Hrun.
Defined.

(** C10, on a bump type that is no bump type: 1.2.3 becomes 1.2.4. *)
Lemma unknown_bump_type_is_patch_witness :
  bump_version (py "bogus") (loaded (py "1.2.3") None) =
    (Ok (py "1.2.3", py "1.2.4"),
     bumped_state (py "1.2.4") (loaded (py "1.2.3") None)) /\
  bump_version (py "bogus") (loaded (py "1.x.3") None) =
    (Raise ValueError, loaded (py "1.x.3") None).
Proof.
  split.
  - destruct (unknown_bump_type_is_patch (loaded (py "1.2.3") None)
                (py "bogus")) as (_ & Hok & _); try discriminate.
    exact (proj1 (proj2 (Hok (py "1.2.3") 1%Z 2%Z 3%Z
                           eq_refl eq_refl eq_refl eq_refl))).
  - destruct (unknown_bump_type_is_patch (loaded (py "1.x.3") None)
                (py "bogus")) as (_ & _ & Hbad); try discriminate.
    apply (Hbad (py "1.x.3") 1); [reflexivity | lia | reflexivity].
Defined.

(** C5 fails on a version with four components: the fourth is no number,
    and the bump succeeds and persists 1.2.4. *)
Lemma fourth_component_not_read :
  In (py "x") (split "." (py "1.2.3.x")) /\
  int (py "x") = None /\
  bump_version (py "patch") (loaded (py "1.2.3.x") None) =
    (Ok (py "1.2.3.x", py "1.2.4"),
     bumped_state (py "1.2.4") (loaded (py "1.2.3.x") None)) /\
  assoc (py "version")
        (manifest_file (bumped_state (py "1.2.4") (loaded (py "1.2.3.x") None)))
    = Some (JStr (py "1.2.4")).
Proof.
  split; [simpl; auto|]. repeat split; reflexivity.
Qed.

(** C5, as the code has it, on a version whose second component is a letter. *)
Lemma bad_component_rejected_witness :
  bump_version (py "minor") (loaded (py "1.x.3") None) =
  (Raise ValueError, loaded (py "1.x.3") None).
Proof.
  apply (bad_component_rejected (loaded (py "1.x.3") None) (py "minor")
           (py "1.x.3") 1).
  - reflexivity.
  - lia.
  - left. reflexivity.
Defined.

(** C7, on the sample manifest: the keys stay in place and the entry that is
    no string is untouched. *)
Lemma bump_keeps_other_fields_witness :
  let run := (_load ;; bump_version (py "minor")) (loaded (py "1.2.3") None) in
  map fst (manifest_file (snd run)) = map fst (manifest_of (py "1.2.3")) /\
  assoc (py "manifest_version") (manifest_file (snd run)) = Some (JOther 3%Z).
Proof.
  intros run.
  assert (H : run = (Ok (py "1.2.3", py "1.3.0"), snd run))
    by (vm_compute; reflexivity).
  destruct (bump_keeps_other_fields (loaded (py "1.2.3") None) (snd run)
              (py "minor") (py "1.2.3") (py "1.3.0") H)
    as (_ & Hother & _ & _ & Hkeys & _).
  split.
  - apply Hkeys. simpl. auto.
  - rewrite Hother by discriminate. reflexivity.
Defined.

(** ** Walks and builds *)

(** The dependency cache is neither added nor listed; neither are the
    compiled file and the old archive added. *)
Example demo_walk_result :
  fst demo_walk = Ok tt /\
  file_at store_zip (snd demo_walk) =
    Some (mkOutfile false false
            [(py "/home/dev/liker/src/content.js", py "src/content.js");
             (py "/home/dev/liker/src/lib/util.js", py "src/lib/util.js")]) /\
  scanned (snd demo_walk) =
    [py "/home/dev/liker/src"; py "/home/dev/liker/src/lib"].
Proof. repeat split; reflexivity. Qed.

(** C2, on that walk. *)
Lemma excluded_names_never_packaged_witness :
  exists (f' : outfile) (added : list (str * str)) (visited : list str),
    file_at store_zip (snd demo_walk) = Some f' /\
    entries f' = added /\
    scanned (snd demo_walk) = visited /\
    (forall file_path arc_path, In (file_path, arc_path) added ->
       exists rel, rel <> [] /\
         segments file_path
           = segments (os_path_join demo_root (py "src")) ++ rel /\
         segments arc_path = segments (py "src") ++ rel /\
         forall name, In name rel -> ~ excluded_name name) /\
    (forall dir, In dir visited ->
       exists rel,
         segments dir = segments (os_path_join demo_root (py "src")) ++ rel /\
         forall name, In name rel -> ~ excluded_name name).
Proof.
  apply (excluded_names_never_packaged (env := demo_env) store_zip
           (os_path_join demo_root (py "src")) (py "src") demo_src
           demo_open (snd demo_walk) (fst demo_walk) (mkOutfile false false [])).
  - prove_wf.
  - reflexivity.
  - apply surjective_pairing.
Defined.

Example demo_build_result :
  (exists r, fst demo_build = Ok r /\
     r_store r = py "/home/dev/liker/releases/youtube-auto-liker-v1.2.3-store.zip" /\
     r_github r = py "/home/dev/liker/releases/youtube-auto-liker-v1.2.3.zip" /\
     r_slug r = py "youtube-auto-liker" /\
     r_output_dir r = py "/home/dev/liker/releases") /\
  file_at store_zip (snd demo_build) =
    Some (mkOutfile false true
            [(py "/home/dev/liker/manifest.json", py "manifest.json");
             (py "/home/dev/liker/icons/icon.png", py "icons/icon.png");
             (py "/home/dev/liker/src/content.js", py "src/content.js");
             (py "/home/dev/liker/src/lib/util.js", py "src/lib/util.js")]) /\
  file_at full_zip (snd demo_build) =
    Some (mkOutfile false true
            [(py "/home/dev/liker/manifest.json", py "manifest.json");
             (py "/home/dev/liker/icons/icon.png", py "icons/icon.png");
             (py "/home/dev/liker/src/content.js", py "src/content.js");
             (py "/home/dev/liker/src/lib/util.js", py "src/lib/util.js");
             (py "/home/dev/liker/README.md", py "README.md");
             (py "/home/dev/liker/LICENSE", py "LICENSE")]).
Proof.
  split; [|split; reflexivity].
  eexists. split; [reflexivity|]. repeat split; reflexivity.
Qed.

(** C4.  On the project kept under a directory called [docs] the build
    returns, the documentation files [README.md] and [LICENSE] are there,
    and the full archive has nothing the store archive has not: a listed
    file is tested by its whole path, of which [docs] is a component, where
    the walk of a listed directory tests names only, so that the files of
    [icons] and [src] are kept and the manifest and the documentation are
    not. *)
Lemma documentation_left_out_under_docs :
  _get_existing_files (env := docs_env) DOCS_FILES
    = [py "README.md"; py "LICENSE"] /\
  (exists r, fst docs_build = Ok r) /\
  file_at store_zip (snd docs_build) =
    Some (mkOutfile false true
            [(py "/home/dev/docs/liker/icons/icon.png", py "icons/icon.png");
             (py "/home/dev/docs/liker/src/content.js", py "src/content.js");
             (py "/home/dev/docs/liker/src/lib/util.js", py "src/lib/util.js")]) /\
  file_at full_zip (snd docs_build) =
    Some (mkOutfile false true
            [(py "/home/dev/docs/liker/icons/icon.png", py "icons/icon.png");
             (py "/home/dev/docs/liker/src/content.js", py "src/content.js");
             (py "/home/dev/docs/liker/src/lib/util.js", py "src/lib/util.js")]).
Proof.
  split; [reflexivity|]. split; [eexists; reflexivity|].
  split; reflexivity.
Qed.

(** C6, on a store archive left locked by an earlier run: nothing is built
    and the output directory is as it was. *)
Lemma locked_output_aborts_witness :
  exists s',
    build_store_package (env := demo_env) demo_locked
      = (Raise (SystemExit 1), s') /\
    releases s' = releases demo_locked /\
    stdout s' =
      [newline :: py "  Error: Cannot overwrite youtube-auto-liker-v1.2.3-store.zip";
       py "  The file may be open in another program.";
       py "  Close the file and try again." ++ [newline]].
Proof.
  destruct (locked_output_aborts (env := demo_env)
              (_get_existing_files (env := demo_env) STORE_FILES) (py "-store")
              demo_locked store_zip
              (mkOutfile true true [(py "stale", py "stale")])
              eq_refl eq_refl eq_refl)
    as (s' & Hrun & Hout & Hrel & _).
  exists s'. split; [exact Hrun|]. split; [exact Hrel | exact Hout].
Defined.



(** C9.  On the project kept under a directory called [scripts] the build
    returns and the entries that are missing, the privacy policy and the
    changelog, stop nothing; but of the five listed entries that exist the
    three that are files, the manifest among them, are in neither archive:
    a listed file is tested by its whole path, of which [scripts] is a
    component. *)
Lemma listed_files_left_out_under_scripts :
  stat (env := scripts_env) (py "PRIVACY.md") = None /\
  stat (env := scripts_env) (py "CHANGELOG.md") = None /\
  _get_existing_files (env := scripts_env) (STORE_FILES ++ DOCS_FILES)
    = [py "manifest.json"; py "icons"; py "src"; py "README.md";
       py "LICENSE"] /\
  (exists r, fst scripts_build = Ok r) /\
  file_at store_zip (snd scripts_build) =
    Some (mkOutfile false true
            [(py "/home/dev/scripts/liker/icons/icon.png",
              py "icons/icon.png");
             (py "/home/dev/scripts/liker/src/content.js",
              py "src/content.js");
             (py "/home/dev/scripts/liker/src/lib/util.js",
              py "src/lib/util.js")]) /\
  file_at full_zip (snd scripts_build) =
    Some (mkOutfile false true
            [(py "/home/dev/scripts/liker/icons/icon.png",
              py "icons/icon.png");
             (py "/home/dev/scripts/liker/src/content.js",
              py "src/content.js");
             (py "/home/dev/scripts/liker/src/lib/util.js",
              py "src/lib/util.js")]).
Proof.
  split; [reflexivity|]. split; [reflexivity|]. split; [reflexivity|].
  split; [eexists; reflexivity|]. split; reflexivity.
Qed.

(** ** More on bumps, walks, builds and sizes *)

(** After a patch bump of 1.2.3, a minor bump starts from 1.2.4. *)
Lemma bump_after_bump_witness :
  let s1 := bumped_state (py "1.2.4") (loaded (py "1.2.3") None) in
  bump_version (py "minor") s1 =
    (Ok (py "1.2.4", py "1.3.0"), bumped_state (py "1.3.0") s1).
Proof.
  intros s1.
  destruct (bump_after_bump (loaded (py "1.2.3") None) s1
              (py "patch") (py "minor") (py "1.2.3") (py "1.2.4") eq_refl)
    as (major & minor & patch & a & b & c & _ & _ & Hread & Hrun).
  vm_compute in Hread. injection Hread as <- <- <-. exact Hrun.
Defined.

(** A major bump of 1.9.9 gives 2.0.0, which is above it. *)
Lemma bump_moves_forward_witness :
  exists v w,
    read_version (py "1.9.9") = Some v /\ read_version (py "2.0.0") = Some w /\
    version_lt v w.
Proof.
  exact (bump_moves_forward (loaded (py "1.9.9") None)
           (bumped_state (py "2.0.0") (loaded (py "1.9.9") None))
           (py "major") (py "1.9.9") (py "2.0.0") eq_refl).
Defined.

(** A minor bump of the manifest that has no version. *)
Lemma bump_without_version_witness :
  fst (bump_version (py "minor") bare) = Ok (py "0.0.0", py "0.1.0") /\
  manifest_file (snd (bump_version (py "minor") bare)) =
    [(py "manifest_version", JOther 3%Z); (py "version", JStr (py "0.1.0"))].
Proof.
  destruct (bump_without_version bare (py "minor") eq_refl)
    as (new & Hrun & _ & Hminor & _ & Hfile).
  rewrite Hrun. cbn [fst snd]. rewrite Hfile.
  rewrite (Hminor eq_refl). split; reflexivity.
Defined.

Example slug_edge_samples :
  slugify (py "---") = py "" /\
  slugify (py "!!!") = py "" /\
  slugify [chr 201; chr 233] = py "" /\
  slugify (py "A--b  C") = py "a-b-c" /\
  slugify (py "extension") = py "extension".
Proof. repeat split; reflexivity. Qed.

(** The file [lib/util.js] of the sample source directory: the walk has
    listed [lib], and the file is in the archive. *)
Lemma kept_files_are_packaged_witness :
  exists (f' : outfile) (arc_path : str),
    file_at store_zip (snd demo_walk) = Some f' /\
    In (py "/home/dev/liker/src/lib/util.js", arc_path) (entries f') /\
    segments arc_path = [py "src"; py "lib"; py "util.js"].
Proof.
  assert (Hkept : ~ excluded_name (py "util.js")).
  { intros Hex. apply should_exclude_name in Hex;
      [vm_compute in Hex; discriminate Hex|].
    simpl. intros Hsep.
    repeat (destruct Hsep as [Hsep | Hsep]; [discriminate Hsep|]).
    exact Hsep. }
  assert (Hlisted : In (fold_left os_path_join [py "lib"]
                                  (os_path_join demo_root (py "src")))
                       [py "/home/dev/liker/src";
                        py "/home/dev/liker/src/lib"])
    by (right; left; reflexivity).
  exact (kept_files_are_packaged (env := demo_env) store_zip
           (os_path_join demo_root (py "src")) (py "src") demo_src
           demo_open (snd demo_walk) (mkOutfile false false [])
           [py "/home/dev/liker/src"; py "/home/dev/liker/src/lib"]
           [py "lib"] (py "util.js")
           ltac:(prove_wf) eq_refl eq_refl eq_refl Hlisted eq_refl Hkept).
Defined.

(** A build of version 1.2.3 leaves the archive of version 1.2.2 where it
    is, and the manifest as it is. *)
Lemma build_leaves_the_rest_witness :
  let b := build_all (env := demo_env) with_old in
  file_at old_zip (snd b) = file_at old_zip with_old /\
  manifest_file (snd b) = manifest_of (py "1.2.3").
Proof.
  intros b.
  destruct (build_leaves_the_rest (env := demo_env) with_old (snd b) (fst b)
              (surjective_pairing b)) as (_ & Hf & Hk & _).
  split; [|exact Hf].
  apply Hk; intros E; vm_compute in E; discriminate E.
Defined.

(** The build of the project whose manifest has neither name nor version. *)
Lemma build_reports_the_manifest_witness :
  let b := build_all (env := demo_env) bare in
  exists r,
    b = (Ok r, snd b) /\
    r_name r = JStr (py "extension") /\
    r_store r =
      os_path_join (r_output_dir r) (py "extension-v0.0.0-store.zip") /\
    r_github r = os_path_join (r_output_dir r) (py "extension-v0.0.0.zip").
Proof.
  intros b.
  assert (H : exists r, b = (Ok r, snd b))
    by (eexists; vm_compute; reflexivity).
  destruct H as [r H]. exists r. split; [exact H|].
  destruct (build_reports_the_manifest (env := demo_env) bare (snd b) r H)
    as (n & Hname & Hn & _ & _ & _ & _ & _ & _ & Hdefault).
  vm_compute in Hn. injection Hn as <-.
  split; [exact Hname|]. exact (Hdefault eq_refl eq_refl).
Defined.

(** With the full archive locked, the store archive is built and the build
    exits. *)
Lemma locked_full_archive_keeps_store_witness :
  exists s',
    build_all (env := demo_env) full_locked = (Raise (SystemExit 1), s') /\
    file_at store_zip s' =
      Some (mkOutfile false true
              (flat_map (item_entries (env := demo_env)) STORE_FILES)) /\
    file_at full_zip s' =
      Some (mkOutfile true true [(py "stale", py "stale")]) /\
    stdout s' = stdout full_locked ++ locked_messages full_zip.
Proof.
  apply (locked_full_archive_keeps_store (env := demo_env) full_locked
           store_zip full_zip
           (mkOutfile true true [(py "stale", py "stale")]));
    try reflexivity.
  intros g H. vm_compute in H. discriminate H.
Defined.

(** A patch bump of 1.2.3, then the build: the archives are those of
    1.2.4. *)
Lemma bump_then_build_witness :
  let s1 := bumped_state (py "1.2.4") (loaded (py "1.2.3") None) in
  let b := build_all (env := demo_env) s1 in
  dict_get (py "version") (JStr (py "0.0.0")) (manifest_file (snd b))
    = JStr (py "1.2.4") /\
  exists r,
    fst b = Ok r /\ r_version r = JStr (py "1.2.4") /\
    r_store r =
      py "/home/dev/liker/releases/youtube-auto-liker-v1.2.4-store.zip" /\
    r_github r = py "/home/dev/liker/releases/youtube-auto-liker-v1.2.4.zip".
Proof.
  intros s1 b.
  destruct (bump_then_build (env := demo_env) (loaded (py "1.2.3") None)
              s1 (snd b) (py "patch") (py "1.2.3") (py "1.2.4") (fst b)
              eq_refl (surjective_pairing b)) as (_ & Hver & Hok).
  split; [exact Hver|].
  assert (H : exists r, fst b = Ok r) by (eexists; vm_compute; reflexivity).
  destruct H as [r H]. exists r. split; [exact H|].
  destruct (Hok r H) as (n & sn & fn & Hn & -> & -> & Hv & Hs & Hg & _).
  vm_compute in Hn. injection Hn as <-.
  split; [exact Hv|]. split; [rewrite Hs | rewrite Hg]; reflexivity.
Defined.

(** The sample build, run a second time. *)
Lemma build_again_witness :
  exists r s2,
    demo_build = (Ok r, snd demo_build) /\
    build_all (env := demo_env) (snd demo_build) = (Ok r, s2) /\
    file_at store_zip s2 = file_at store_zip (snd demo_build) /\
    file_at full_zip s2 = file_at full_zip (snd demo_build).
Proof.
  assert (H : exists r, demo_build = (Ok r, snd demo_build))
    by (eexists; vm_compute; reflexivity).
  destruct H as [r H].
  destruct (build_again (env := demo_env) (loaded (py "1.2.3") None)
              (snd demo_build) r H) as (s2 & Hrun & Hk & _).
  exists r, s2. split; [exact H|]. split; [exact Hrun|].
  split; apply Hk.
Defined.


Example format_size_samples :
  format_size 0 = Some (py "0 B") /\
  format_size 1023 = Some (py "1023 B") /\
  format_size 1024 = Some (py "1.0 KB") /\
  format_size 1280 = Some (py "1.2 KB") /\
  format_size 1331 = Some (py "1.3 KB") /\
  format_size 1048524 = Some (py "1023.9 KB") /\
  format_size 1048576 = Some (py "1.0 MB") /\
  format_size (2 ^ 53 + 1) = Some (py "8589934592.0 MB") /\
  format_size ((2 ^ 53 + 3) * 2 ^ 20) = Some (py "9007199254740996.0 MB") /\
  format_size (2 ^ 1044) = None.
Proof. repeat split; vm_compute; reflexivity. Qed.

(** A size of one and a half kibibytes. *)
Lemma format_size_one_decimal_witness :
  exists t : Z,
    (10 <= t)%Z /\
    format_size 1536 = Some (one_decimal t ++ py " KB") /\
    (2 * Z.abs (10 * 1536 - 1024 * t) <= 1024)%Z /\ (t <= 10240)%Z.
Proof.
  assert (H : (1024 <= 1536 < 2 ^ 53)%Z) by (split; [lia | reflexivity]).
  exact (format_size_one_decimal 1536 H).
Defined.

(** One byte below [1024 * 1024]. *)
Lemma format_size_rounds_to_1024_kb_witness :
  format_size 1048575 = Some (py "1024.0 KB").
Proof.
  apply (format_size_rounds_to_1024_kb 1048575). lia.
Defined.
